(** * Pattern algorithms: concentric square and single-loop triangle

    A shallow embedding of [concentric_square.c] and [triangle.c] and the
    properties of their printed output.

    Conventions of the embedding:
    - a C [int] is a [Z] kept in the 32-bit two's complement range; every
      arithmetic operator of the source is the exact operation followed by
      the reduction [Int.wrap], the two's complement result of the usual
      compilers and targets (ISO C leaves signed overflow undefined);
    - standard output is a [string] threaded through a small state monad;
      [printf] appends to it;
    - the [for] loops are recursive functions on a fuel counter that test
      the loop condition of the source at every iteration; running out of
      fuel is the result [None], and the loops are proved never to do so;
    - [scanf("%d", &size)] is libc code: its outcome is the input of [main]. *)

From Stdlib Require Import ZArith Lia List String Ascii DecimalString Bool.
Import ListNotations.

Local Open Scope string_scope.
Local Open Scope Z_scope.

(** ** Machine integers *)

Module Int.

Definition INT_MIN : Z := -2147483648.
Definition INT_MAX : Z := 2147483647.
Definition modulus : Z := 4294967296.

Definition in_range (x : Z) : Prop := INT_MIN <= x <= INT_MAX.

(** Reduction of an exact result into the representable range. *)
Definition wrap (x : Z) : Z := (x - INT_MIN) mod modulus + INT_MIN.

Definition add (a b : Z) : Z := wrap (a + b).
Definition sub (a b : Z) : Z := wrap (a - b).
Definition mul (a b : Z) : Z := wrap (a * b).
(** C division truncates towards zero. *)
Definition div (a b : Z) : Z := wrap (Z.quot a b).

End Int.

(** ** Standard output *)

(** The message of both rendering functions for [n <= 0] and the message
    of both [main] functions for an input that is not an integer, without
    their line feed. *)
Definition error_message : string := "Error: n must be a positive integer".
Definition invalid_input_message : string :=
  "Invalid input. Please enter a positive integer.".

Definition nl : string := String "010"%char EmptyString.

(** [s ++ nl], the way a format string ending in a line feed is written. *)
Definition line (s : string) : string := s ++ nl.

(** The conversion [%d]. *)
Definition fmt_d (v : Z) : string := NilZero.string_of_int (Z.to_int v).

Definition stdout : Type := string.

(** A computation reads the text printed so far and returns its result
    with the extended text; [None] is a loop that ran out of fuel. *)
Definition IO (A : Type) : Type := stdout -> option (A * stdout).

Definition ret {A : Type} (a : A) : IO A := fun out => Some (a, out).

Definition bind {A B : Type} (c : IO A) (k : A -> IO B) : IO B :=
  fun out =>
    match c out with
    | Some (a, out') => k a out'
    | None => None
    end.

Definition out_of_fuel {A : Type} : IO A := fun _ => None.

Definition printf (s : string) : IO unit := fun out => Some (tt, out ++ s).

Notation "c1 ;; c2" := (bind c1 (fun _ => c2))
  (at level 61, right associativity).

(** Running a program from an empty output. *)
Definition run {A : Type} (c : IO A) : option (A * stdout) := c EmptyString.

(** Concatenation of a list of printed pieces. *)
Definition cat (l : list string) : string := fold_right String.append EmptyString l.

(** The integers [start], [start + 1], ... ([len] of them): the values a
    loop counter takes. *)
Fixpoint zseq (start : Z) (len : nat) : list Z :=
  match len with
  | O => []
  | S len' => start :: zseq (start + 1) len'
  end.

(** [yields c a s]: from any output so far, [c] returns [a] and has
    appended exactly [s]. *)
Definition yields {A : Type} (c : IO A) (a : A) (s : string) : Prop :=
  forall out, c out = Some (a, out ++ s).

(** [emits c s]: [c] returns and has appended exactly [s]. *)
Definition emits (c : IO unit) (s : string) : Prop := yields c tt s.

(** [returns c]: from any output so far, [c] returns. *)
Definition returns (c : IO unit) : Prop := exists s, emits c s.

(** ** Reading a printed text back *)

(** The pieces of [s] that end in the character [sep], without it (and a
    last piece that does not end in [sep], if any). *)
Fixpoint fields (sep : ascii) (s : string) : list string :=
  match s with
  | EmptyString => []
  | String c s' =>
      if Ascii.eqb c sep then EmptyString :: fields sep s'
      else match fields sep s' with
           | [] => [String c EmptyString]
           | f :: fs => String c f :: fs
           end
  end.

(** The lines of a text and the tokens of a line. *)
Definition lines (s : string) : list string := fields "010"%char s.
Definition tokens (s : string) : list string := fields " "%char s.

(** [s] does not contain the character [sep]. *)
Fixpoint free_of (sep : ascii) (s : string) : bool :=
  match s with
  | EmptyString => true
  | String c s' => negb (Ascii.eqb c sep) && free_of sep s'
  end.

(** The number of occurrences of the character [c] in [s]. *)
Fixpoint count_char (c : ascii) (s : string) : nat :=
  match s with
  | EmptyString => O
  | String a s' => ((if Ascii.eqb a c then 1 else 0) + count_char c s')%nat
  end.

(** Outcome of [scanf("%d", &size)]: one conversion stored, or anything
    else (no conversion, end of input). *)
Inductive scan_result : Type :=
| Parsed (size : Z)
| NoParse.

(** ** concentric_square.c *)

Module ConcentricSquare.

(** [#define MAX(a, b) ((a) > (b) ? (a) : (b))] *)
Definition MAX (a b : Z) : Z := if a >? b then a else b.

(** The loop [for (int j = 0; j < m; j++)] of [print_concentric_square],
    entered at column [j] of row [i]. *)
Fixpoint row_loop (fuel : nat) (n m i j : Z) : IO unit :=
  if j <? m then
    match fuel with
    | O => out_of_fuel
    | S fuel' =>
        (if Int.add i j <? m
         then printf (fmt_d (MAX (Int.sub n i) (Int.sub n j)) ++ " ")
         else printf (fmt_d (Int.add (MAX (Int.sub i n) (Int.sub j n)) 2) ++ " ")) ;;
        row_loop fuel' n m i (Int.add j 1)
    end
  else ret tt.

(** The loop [for (int i = 0; i < m; i++)], entered at row [i]. *)
Fixpoint grid_loop (fuel : nat) (n m i : Z) : IO unit :=
  if i <? m then
    match fuel with
    | O => out_of_fuel
    | S fuel' =>
        row_loop (Z.to_nat m) n m i 0 ;;
        printf nl ;;
        grid_loop fuel' n m (Int.add i 1)
    end
  else ret tt.

Definition print_concentric_square (n : Z) : IO unit :=
  if n <=? 0 then
    printf (line "Error: n must be a positive integer")
  else
    let m := Int.sub (Int.mul 2 n) 1 in
    grid_loop (Z.to_nat m) n m 0.

(** The inner loop of [visualize_regions]. *)
Fixpoint region_row_loop (fuel : nat) (m i j : Z) : IO unit :=
  if j <? m then
    match fuel with
    | O => out_of_fuel
    | S fuel' =>
        (if Int.add i j <? m then printf "U " else printf "L ") ;;
        region_row_loop fuel' m i (Int.add j 1)
    end
  else ret tt.

(** The outer loop of [visualize_regions]. *)
Fixpoint region_loop (fuel : nat) (m i : Z) : IO unit :=
  if i <? m then
    match fuel with
    | O => out_of_fuel
    | S fuel' =>
        region_row_loop (Z.to_nat m) m i 0 ;;
        printf nl ;;
        region_loop fuel' m (Int.add i 1)
    end
  else ret tt.

Definition visualize_regions (n : Z) : IO unit :=
  let m := Int.sub (Int.mul 2 n) 1 in
  printf (line "Region visualization (U = Upper-left, L = Lower-right):") ;;
  region_loop (Z.to_nat m) m 0 ;;
  printf nl.

(** [main]; the result is the exit status. *)
Definition main (input : scan_result) : IO Z :=
  printf (line "Concentric Square Pattern - Diagonal Decomposition") ;;
  printf (line (line "==================================================")) ;;
  printf "Enter the size parameter n: " ;;
  match input with
  | NoParse =>
      printf (line "Invalid input. Please enter a positive integer.") ;;
      ret 1
  | Parsed size =>
      printf nl ;;
      (if size <=? 7 then visualize_regions size else ret tt) ;;
      printf (line "Concentric square pattern:") ;;
      print_concentric_square size ;;
      printf nl ;;
      printf (nl ++ line "Examples of other sizes:") ;;
      printf (line (line "------------------------")) ;;
      printf (line "n = 3:") ;;
      print_concentric_square 3 ;;
      printf (nl ++ line "n = 5:") ;;
      print_concentric_square 5 ;;
      ret 0
  end.

(** *** The printed grid, cell by cell *)

(** The dimension [m] computed at the head of [print_concentric_square]. *)
Definition grid_dim (n : Z) : Z := Int.sub (Int.mul 2 n) 1.

(** The integer handed to [printf("%d ", ...)] at row [i], column [j]:
    the body of the inner loop without the printing. *)
Definition cell_value (n m i j : Z) : Z :=
  if Int.add i j <? m
  then MAX (Int.sub n i) (Int.sub n j)
  else Int.add (MAX (Int.sub i n) (Int.sub j n)) 2.

(** The values of the grid, row by row, as the two loops visit them. *)
Definition grid (n : Z) : list (list Z) :=
  let m := grid_dim n in
  map (fun i => map (cell_value n m i) (zseq 0 (Z.to_nat m)))
      (zseq 0 (Z.to_nat m)).

(** The text of one row: each integer followed by a space, then the
    line feed. *)
Definition render_row (r : list Z) : string :=
  cat (map (fun v => fmt_d v ++ " ") r) ++ nl.

Definition render_grid (g : list (list Z)) : string :=
  cat (map render_row g).

(** The entry of the printed grid at row [i], column [j]. *)
Definition printed_value (n i j : Z) : Z :=
  nth (Z.to_nat j) (nth (Z.to_nat i) (grid n) []) 0.

(** The usual concentric-ring value, from the distance to the nearest
    edge of the [m x m] square, [m = 2n - 1], in exact arithmetic. *)
Definition edge_distance_value (n i j : Z) : Z :=
  let m := 2 * n - 1 in
  n - Z.min (Z.min i j) (Z.min (m - 1 - i) (m - 1 - j)).

(** The other split of the grid: the anti-diagonal [i + j = m - 1] goes
    to the lower-right formula instead of the upper-left one. *)
Definition cell_value_alt (n m i j : Z) : Z :=
  if Int.add i j <? Int.sub m 1
  then MAX (Int.sub n i) (Int.sub n j)
  else Int.add (MAX (Int.sub i n) (Int.sub j n)) 2.

(** What [main] prints before reading its input. *)
Definition banner : string :=
  line "Concentric Square Pattern - Diagonal Decomposition" ++
  line (line "==================================================") ++
  "Enter the size parameter n: ".

(** The patterns of sizes 3 and 5. *)
Definition square_3 : list (list Z) :=
  [[3; 3; 3; 3; 3];
   [3; 2; 2; 2; 3];
   [3; 2; 1; 2; 3];
   [3; 2; 2; 2; 3];
   [3; 3; 3; 3; 3]].

Definition square_5 : list (list Z) :=
  [[5; 5; 5; 5; 5; 5; 5; 5; 5];
   [5; 4; 4; 4; 4; 4; 4; 4; 5];
   [5; 4; 3; 3; 3; 3; 3; 4; 5];
   [5; 4; 3; 2; 2; 2; 3; 4; 5];
   [5; 4; 3; 2; 1; 2; 3; 4; 5];
   [5; 4; 3; 2; 2; 2; 3; 4; 5];
   [5; 4; 3; 3; 3; 3; 3; 4; 5];
   [5; 4; 4; 4; 4; 4; 4; 4; 5];
   [5; 5; 5; 5; 5; 5; 5; 5; 5]].

(** The closing part of the output of [main]: the two examples. *)
Definition examples : string :=
  nl ++ line "Examples of other sizes:" ++
  line (line "------------------------") ++
  line "n = 3:" ++ render_grid square_3 ++
  nl ++ line "n = 5:" ++ render_grid square_5.

(** The text of one row of [visualize_regions]. *)
Definition region_row (m i : Z) : string :=
  cat (map (fun j => if Int.add i j <? m then "U " else "L ")
           (zseq 0 (Z.to_nat m))) ++ nl.

End ConcentricSquare.

(** ** triangle.c *)

Module Triangle.

(** The loop [for (int i = 1; i <= total; i++)] of [print_triangle],
    entered at position [i] with the row counter [row]. *)
Fixpoint star_loop (fuel : nat) (total i row : Z) : IO unit :=
  if i <=? total then
    match fuel with
    | O => out_of_fuel
    | S fuel' =>
        printf "* " ;;
        if i =? Int.div (Int.mul row (Int.add row 1)) 2 then
          printf nl ;;
          star_loop fuel' total (Int.add i 1) (Int.add row 1)
        else
          star_loop fuel' total (Int.add i 1) row
    end
  else ret tt.

Definition print_triangle (n : Z) : IO unit :=
  if n <=? 0 then
    printf (line "Error: n must be a positive integer")
  else
    let total := Int.div (Int.mul n (Int.add n 1)) 2 in
    star_loop (Z.to_nat total) total 1 1.

(** [main]; the result is the exit status. *)
Definition main (input : scan_result) : IO Z :=
  printf (line "Right Triangle Pattern - Single Loop Implementation") ;;
  printf (line (line "===================================================")) ;;
  printf "Enter the height of the triangle: " ;;
  match input with
  | NoParse =>
      printf (line "Invalid input. Please enter a positive integer.") ;;
      ret 1
  | Parsed size =>
      printf nl ;;
      print_triangle size ;;
      printf nl ;;
      printf (nl ++ line "Examples of other sizes:") ;;
      printf (line (line "------------------------")) ;;
      printf (line "n = 3:") ;;
      print_triangle 3 ;;
      printf (nl ++ line "n = 6:") ;;
      print_triangle 6 ;;
      ret 0
  end.

(** [k] glyphs. *)
Fixpoint glyphs (k : nat) : string :=
  match k with
  | O => EmptyString
  | S k' => "* " ++ glyphs k'
  end.

(** Rows [1] to [n] of the triangle: row [k] is [k] glyphs and the
    line feed. *)
Definition triangle_rows (n : nat) : list string :=
  map (fun k => glyphs k ++ nl) (seq 1 n).

(** What [main] prints before reading its input. *)
Definition banner : string :=
  line "Right Triangle Pattern - Single Loop Implementation" ++
  line (line "===================================================") ++
  "Enter the height of the triangle: ".

(** The closing part of the output of [main]: the triangles of heights
    3 and 6. *)
Definition examples : string :=
  nl ++ line "Examples of other sizes:" ++
  line (line "------------------------") ++
  line "n = 3:" ++ cat (triangle_rows 3) ++
  nl ++ line "n = 6:" ++ cat (triangle_rows 6).

(** The [k]-th triangular number. *)
Definition T (k : Z) : Z := k * (k + 1) / 2.

End Triangle.


(** * Proofs *)

(** ** Strings and lists *)

Lemma append_nil_r (s : string) : s ++ EmptyString = s.
Proof. induction s as [|c s IH]; simpl; [reflexivity | now rewrite IH]. Qed.

Lemma append_nil_l (s : string) : EmptyString ++ s = s.
Proof. reflexivity. Qed.

Lemma append_assoc (s1 s2 s3 : string) : (s1 ++ s2) ++ s3 = s1 ++ (s2 ++ s3).
Proof. induction s1 as [|c s1 IH]; simpl; [reflexivity | now rewrite IH]. Qed.

Lemma cat_cons (x : string) (l : list string) : cat (x :: l) = x ++ cat l.
Proof. reflexivity. Qed.

Lemma cat_app (l1 l2 : list string) :
  cat (l1 ++ l2)%list = cat l1 ++ cat l2.
Proof.
  induction l1 as [|x l1 IH]; simpl; [reflexivity|].
  now rewrite IH, append_assoc.
Qed.

Lemma zseq_length (start : Z) (len : nat) :
  List.length (zseq start len) = len.
Proof.
  revert start; induction len as [|len IH]; intros start; simpl;
    [reflexivity | now rewrite IH].
Qed.

Lemma zseq_nth (len : nat) :
  forall (start : Z) (k : nat) (d : Z),
    (k < len)%nat -> nth k (zseq start len) d = start + Z.of_nat k.
Proof.
  induction len as [|len IH]; intros start k d Hk; [lia|].
  destruct k as [|k]; simpl; [lia|].
  rewrite IH by lia. lia.
Qed.

Lemma zseq_In (len : nat) :
  forall (start x : Z),
    In x (zseq start len) <-> start <= x < start + Z.of_nat len.
Proof.
  induction len as [|len IH]; intros start x; simpl; [lia|].
  rewrite IH. lia.
Qed.

Lemma zseq_map_nth {A : Type} (f : Z -> A) (len : nat) :
  forall (start : Z) (k : nat) (d : A),
    (k < len)%nat -> nth k (map f (zseq start len)) d = f (start + Z.of_nat k).
Proof.
  induction len as [|len IH]; intros start k d Hk; [lia|].
  destruct k as [|k]; simpl; [f_equal; lia|].
  rewrite IH by lia. f_equal; lia.
Qed.

(** ** Reading a printed text back *)

Lemma free_of_app (sep : ascii) (s1 s2 : string) :
  free_of sep (s1 ++ s2) = free_of sep s1 && free_of sep s2.
Proof.
  induction s1 as [|c s1 IH]; simpl; [reflexivity|].
  now rewrite IH, andb_assoc.
Qed.

Lemma free_of_cat (sep : ascii) (l : list string) :
  Forall (fun s => free_of sep s = true) l -> free_of sep (cat l) = true.
Proof.
  induction 1 as [|s l Hs _ IH]; [reflexivity|].
  rewrite cat_cons, free_of_app, Hs, IH. reflexivity.
Qed.

(** A piece without [sep] followed by [sep] is the first field. *)
Lemma fields_terminated (sep : ascii) (w rest : string) :
  free_of sep w = true ->
  fields sep (w ++ String sep rest) = w :: fields sep rest.
Proof.
  induction w as [|c w IH]; simpl; intros H.
  - now rewrite Ascii.eqb_refl.
  - apply andb_true_iff in H. destruct H as [Hc Hw].
    apply negb_true_iff in Hc. rewrite Hc, (IH Hw). reflexivity.
Qed.

(** Pieces printed each with the terminator [sep] are read back one by
    one. *)
Lemma fields_cat {A : Type} (sep : ascii) (f : A -> string) (l : list A) :
  (forall x, In x l -> free_of sep (f x) = true) ->
  fields sep (cat (map (fun x => f x ++ String sep EmptyString) l)) = map f l.
Proof.
  induction l as [|x l IH]; intros H; [reflexivity|].
  cbn [map]. rewrite cat_cons, append_assoc.
  change (String sep EmptyString ++ ?r) with (String sep r).
  rewrite fields_terminated by (apply H; now left).
  rewrite IH by (intros y Hy; apply H; now right). reflexivity.
Qed.

(** The conversion [%d] prints digits and at most a sign: no space and no
    line feed. *)
Lemma digits_no_space (d : Decimal.uint) :
  free_of " "%char (NilEmpty.string_of_uint d) = true.
Proof. induction d; simpl; trivial. Qed.

Lemma digits_no_nl (d : Decimal.uint) :
  free_of "010"%char (NilEmpty.string_of_uint d) = true.
Proof. induction d; simpl; trivial. Qed.

Lemma string_of_uint_no_space (d : Decimal.uint) :
  free_of " "%char (NilZero.string_of_uint d) = true.
Proof. destruct d; try reflexivity; apply (digits_no_space (_ d)). Qed.

Lemma string_of_uint_no_nl (d : Decimal.uint) :
  free_of "010"%char (NilZero.string_of_uint d) = true.
Proof. destruct d; try reflexivity; apply (digits_no_nl (_ d)). Qed.

Lemma fmt_d_no_space (v : Z) : free_of " "%char (fmt_d v) = true.
Proof.
  unfold fmt_d. destruct (Z.to_int v) as [d|d]; simpl;
    apply string_of_uint_no_space.
Qed.

Lemma fmt_d_no_nl (v : Z) : free_of "010"%char (fmt_d v) = true.
Proof.
  unfold fmt_d. destruct (Z.to_int v) as [d|d]; simpl;
    apply string_of_uint_no_nl.
Qed.

(** ** Machine integers *)

Lemma wrap_id (x : Z) : Int.in_range x -> Int.wrap x = x.
Proof.
  unfold Int.in_range, Int.wrap, Int.INT_MIN, Int.INT_MAX, Int.modulus.
  intros H. rewrite Z.mod_small; lia.
Qed.

Lemma wrap_in_range (x : Z) : Int.in_range (Int.wrap x).
Proof.
  unfold Int.in_range, Int.wrap, Int.INT_MIN, Int.INT_MAX, Int.modulus.
  pose proof (Z.mod_pos_bound (x - -2147483648) 4294967296 eq_refl). lia.
Qed.

(** An exact result one modulus above the range comes back down. *)
Lemma wrap_above (x : Z) :
  Int.INT_MAX < x <= Int.INT_MAX + Int.modulus ->
  Int.wrap x = x - Int.modulus.
Proof.
  unfold Int.wrap, Int.INT_MIN, Int.INT_MAX, Int.modulus. intros H.
  replace (x - -2147483648) with ((x - 4294967296 + 2147483648) + 1 * 4294967296) by lia.
  rewrite Z.mod_add by lia. rewrite Z.mod_small; lia.
Qed.

Lemma wrap_below (x : Z) :
  Int.INT_MIN - Int.modulus <= x < Int.INT_MIN ->
  Int.wrap x = x + Int.modulus.
Proof.
  unfold Int.wrap, Int.INT_MIN, Int.INT_MAX, Int.modulus. intros H.
  replace (x - -2147483648) with ((x + 4294967296 + 2147483648) + (-1) * 4294967296) by lia.
  rewrite Z.mod_add by lia. rewrite Z.mod_small; lia.
Qed.

(** ** Output of a computation *)

Lemma yields_ret {A : Type} (a : A) : yields (ret a) a EmptyString.
Proof. intros out. unfold ret. now rewrite append_nil_r. Qed.

Lemma yields_seq {A : Type} (c1 : IO unit) (c2 : IO A) (a : A) (s1 s2 : string) :
  emits c1 s1 -> yields c2 a s2 -> yields (c1 ;; c2) a (s1 ++ s2).
Proof.
  intros H1 H2 out. unfold bind. rewrite H1, H2. now rewrite append_assoc.
Qed.

Lemma yields_run {A : Type} (c : IO A) (a : A) (s : string) :
  yields c a s -> run c = Some (a, s).
Proof. intros H. unfold run. now rewrite H. Qed.

Lemma emits_ret : emits (ret tt) EmptyString.
Proof. apply yields_ret. Qed.

Lemma emits_printf (s : string) : emits (printf s) s.
Proof. intros out. reflexivity. Qed.

Lemma emits_seq (c1 c2 : IO unit) (s1 s2 : string) :
  emits c1 s1 -> emits c2 s2 -> emits (c1 ;; c2) (s1 ++ s2).
Proof. apply yields_seq. Qed.

Lemma emits_run (c : IO unit) (s : string) :
  emits c s -> run c = Some (tt, s).
Proof. apply yields_run. Qed.

(** The loop counters never leave the range: below a bound that is an
    [int], the increment is exact. *)
Lemma add_1_exact (j m : Z) :
  0 <= j -> j < m -> m <= Int.INT_MAX -> Int.add j 1 = j + 1.
Proof.
  intros H0 Hj Hm. unfold Int.add. apply wrap_id.
  unfold Int.in_range, Int.INT_MIN, Int.INT_MAX in *. lia.
Qed.

Lemma to_nat_succ (m j : Z) :
  j < m -> Z.to_nat (m - j) = S (Z.to_nat (m - (j + 1))).
Proof. intros H. lia. Qed.

(** ** The loops of [print_concentric_square] *)

Section SquareLoops.

Import ConcentricSquare.

Variables n m : Z.
Hypothesis m_int : m <= Int.INT_MAX.

Lemma cell_emits (i j : Z) :
  emits (if Int.add i j <? m
         then printf (fmt_d (MAX (Int.sub n i) (Int.sub n j)) ++ " ")
         else printf (fmt_d (Int.add (MAX (Int.sub i n) (Int.sub j n)) 2) ++ " "))
        (fmt_d (cell_value n m i j) ++ " ").
Proof.
  unfold cell_value. destruct (Int.add i j <? m); apply emits_printf.
Qed.

Lemma row_loop_emits (i : Z) :
  forall (fuel : nat) (j : Z),
    0 <= j -> (Z.to_nat (m - j) <= fuel)%nat ->
    emits (row_loop fuel n m i j)
          (cat (map (fun j' => fmt_d (cell_value n m i j') ++ " ")
                    (zseq j (Z.to_nat (m - j))))).
Proof.
  induction fuel as [|fuel IH]; intros j Hj Hfuel; simpl;
    destruct (j <? m) eqn:E.
  - apply Z.ltb_lt in E. lia.
  - apply Z.ltb_ge in E. replace (Z.to_nat (m - j)) with O by lia.
    apply emits_ret.
  - apply Z.ltb_lt in E.
    rewrite (to_nat_succ m j E) in *. simpl.
    apply emits_seq; [apply cell_emits|].
    rewrite (add_1_exact j m Hj E m_int). apply IH; lia.
  - apply Z.ltb_ge in E. replace (Z.to_nat (m - j)) with O by lia.
    apply emits_ret.
Qed.

Lemma grid_loop_emits :
  forall (fuel : nat) (i : Z),
    0 <= i -> (Z.to_nat (m - i) <= fuel)%nat ->
    emits (grid_loop fuel n m i)
          (render_grid
             (map (fun i' => map (cell_value n m i') (zseq 0 (Z.to_nat m)))
                  (zseq i (Z.to_nat (m - i))))).
Proof.
  induction fuel as [|fuel IH]; intros i Hi Hfuel; simpl;
    destruct (i <? m) eqn:E.
  - apply Z.ltb_lt in E. lia.
  - apply Z.ltb_ge in E. replace (Z.to_nat (m - i)) with O by lia.
    apply emits_ret.
  - apply Z.ltb_lt in E.
    rewrite (to_nat_succ m i E) in *. unfold render_grid. simpl.
    unfold render_row at 1. rewrite append_assoc.
    apply emits_seq.
    + rewrite map_map.
      pose proof (row_loop_emits i (Z.to_nat m) 0) as H.
      rewrite Z.sub_0_r in H. apply H; lia.
    + apply emits_seq; [apply emits_printf|].
      rewrite (add_1_exact i m Hi E m_int). apply IH; lia.
  - apply Z.ltb_ge in E. replace (Z.to_nat (m - i)) with O by lia.
    apply emits_ret.
Qed.

End SquareLoops.

Lemma grid_dim_int (n : Z) : Int.in_range (ConcentricSquare.grid_dim n).
Proof. apply wrap_in_range. Qed.

(** For every positive argument the function returns, and what it has
    printed is the rendering of [grid n]. *)
Lemma print_concentric_square_emits (n : Z) :
  0 < n ->
  emits (ConcentricSquare.print_concentric_square n)
        (ConcentricSquare.render_grid (ConcentricSquare.grid n)).
Proof.
  intros Hn. unfold ConcentricSquare.print_concentric_square.
  destruct (n <=? 0) eqn:E; [apply Z.leb_le in E; lia|].
  cbv zeta. fold (ConcentricSquare.grid_dim n).
  pose proof (grid_dim_int n) as [_ Hm].
  pose proof (grid_loop_emits n (ConcentricSquare.grid_dim n) Hm
                (Z.to_nat (ConcentricSquare.grid_dim n)) 0) as H.
  rewrite Z.sub_0_r in H. apply H; lia.
Qed.

(** ** The grid and its cells *)

Lemma MAX_max (a b : Z) : ConcentricSquare.MAX a b = Z.max a b.
Proof.
  unfold ConcentricSquare.MAX. rewrite Z.gtb_ltb.
  destruct (Z.ltb_spec b a); lia.
Qed.

Ltac int_range := unfold Int.in_range, Int.INT_MIN, Int.INT_MAX, Int.modulus in *; lia.

(** Up to [2^30] the dimension is the exact [2n - 1] (at [2^30] itself the
    two reductions cancel). *)
Lemma grid_dim_exact (n : Z) :
  1 <= n <= 1073741824 -> ConcentricSquare.grid_dim n = 2 * n - 1.
Proof.
  intros Hn. destruct (Z.eq_dec n 1073741824) as [->|Hne]; [reflexivity|].
  unfold ConcentricSquare.grid_dim, Int.sub, Int.mul.
  rewrite (wrap_id (2 * n)) by int_range. apply wrap_id. int_range.
Qed.

(** Above [2^30] the product [2 * n] leaves the range and the dimension
    comes out negative. *)
Lemma grid_dim_negative (n : Z) :
  1073741824 < n <= Int.INT_MAX -> ConcentricSquare.grid_dim n < 0.
Proof.
  intros Hn. unfold ConcentricSquare.grid_dim, Int.sub, Int.mul.
  rewrite (wrap_above (2 * n)) by int_range.
  rewrite wrap_id by int_range. int_range.
Qed.

Lemma grid_length (n : Z) :
  List.length (ConcentricSquare.grid n) = Z.to_nat (ConcentricSquare.grid_dim n).
Proof.
  unfold ConcentricSquare.grid. cbv zeta. now rewrite length_map, zseq_length.
Qed.

Lemma grid_row_length (n : Z) (r : list Z) :
  In r (ConcentricSquare.grid n) ->
  List.length r = Z.to_nat (ConcentricSquare.grid_dim n).
Proof.
  unfold ConcentricSquare.grid. cbv zeta. intros H.
  apply in_map_iff in H. destruct H as [i [<- _]].
  now rewrite length_map, zseq_length.
Qed.

Lemma printed_value_cell (n i j : Z) :
  0 <= i < ConcentricSquare.grid_dim n ->
  0 <= j < ConcentricSquare.grid_dim n ->
  ConcentricSquare.printed_value n i j =
  ConcentricSquare.cell_value n (ConcentricSquare.grid_dim n) i j.
Proof.
  intros Hi Hj. unfold ConcentricSquare.printed_value, ConcentricSquare.grid.
  cbv zeta. rewrite !zseq_map_nth by lia. f_equal; lia.
Qed.

(** The differences of a coordinate and [n] are exact for every cell of a
    grid of dimension [2n - 1]. *)
Lemma cell_value_unfold (n i j : Z) :
  1 <= n <= 1073741824 ->
  0 <= i < 2 * n - 1 -> 0 <= j < 2 * n - 1 ->
  ConcentricSquare.cell_value n (2 * n - 1) i j =
  if Int.add i j <? 2 * n - 1
  then Z.max (n - i) (n - j)
  else Z.max (i - n) (j - n) + 2.
Proof.
  intros Hn Hi Hj. unfold ConcentricSquare.cell_value.
  rewrite !MAX_max. unfold Int.sub.
  rewrite (wrap_id (n - i)), (wrap_id (n - j)), (wrap_id (i - n)),
    (wrap_id (j - n)) by int_range.
  destruct (Int.add i j <? 2 * n - 1); [reflexivity|].
  unfold Int.add. apply wrap_id. int_range.
Qed.

(** Up to [2^29] the sum [i + j] is exact as well. *)
Lemma cell_value_exact (n i j : Z) :
  1 <= n <= 536870912 ->
  0 <= i < 2 * n - 1 -> 0 <= j < 2 * n - 1 ->
  ConcentricSquare.cell_value n (2 * n - 1) i j =
  if i + j <? 2 * n - 1
  then Z.max (n - i) (n - j)
  else Z.max (i - n) (j - n) + 2.
Proof.
  intros Hn Hi Hj. rewrite cell_value_unfold by lia.
  unfold Int.add. rewrite wrap_id by int_range. reflexivity.
Qed.

(** C1 (amended to the sizes where no [int] computation overflows): for
    every [n] with [1 <= n <= 2^29] the function returns having printed the
    rendering of [grid n], and for every cell [(i, j)] with
    [0 <= i, j < m], [m = 2n - 1], the printed value is
    [max (n - i) (n - j)] when [i + j < m] and [max (i - n) (j - n) + 2]
    otherwise, which equals [n - min (i, j, m - 1 - i, m - 1 - j)], the
    distance-from-nearest-edge ring value. *)
Theorem C1_diagonal_split_is_edge_distance (n i j : Z) :
  1 <= n <= 536870912 ->
  0 <= i < 2 * n - 1 -> 0 <= j < 2 * n - 1 ->
  run (ConcentricSquare.print_concentric_square n) =
    Some (tt, ConcentricSquare.render_grid (ConcentricSquare.grid n)) /\
  ConcentricSquare.printed_value n i j =
    (if i + j <? 2 * n - 1
     then Z.max (n - i) (n - j)
     else Z.max (i - n) (j - n) + 2) /\
  ConcentricSquare.printed_value n i j =
    ConcentricSquare.edge_distance_value n i j.
Proof.
  intros Hn Hi Hj.
  assert (Hm : ConcentricSquare.grid_dim n = 2 * n - 1)
    by (apply grid_dim_exact; lia).
  split; [apply emits_run, print_concentric_square_emits; lia|].
  rewrite printed_value_cell by (rewrite Hm; lia).
  rewrite Hm, cell_value_exact by lia.
  split; [reflexivity|].
  unfold ConcentricSquare.edge_distance_value. cbv zeta.
  destruct (Z.ltb_spec (i + j) (2 * n - 1)); lia.
Qed.

Lemma C1_witness :
  ConcentricSquare.printed_value 4 5 3 = 3 /\
  ConcentricSquare.edge_distance_value 4 5 3 = 3.
Proof.
  destruct (C1_diagonal_split_is_edge_distance 4 5 3) as [_ [H1 H2]];
    [lia | lia | lia |].
  split; [exact H1 | rewrite <- H2; exact H1].
Defined.

(** C1 as stated, for every [n >= 1], fails: at [n = 2^29 + 1] the grid has
    dimension [m = 2^30 + 1], and at its last cell [(2^30, 2^30)] the sum
    [i + j = 2^31] is not an [int]; reduced, it is negative, the test
    [i + j < m] succeeds and the upper-left formula is printed. *)
Lemma C1_counterexample :
  1 <= 536870913 <= Int.INT_MAX /\
  ConcentricSquare.grid_dim 536870913 = 2 * 536870913 - 1 /\
  0 <= 1073741824 < 2 * 536870913 - 1 /\
  ConcentricSquare.printed_value 536870913 1073741824 1073741824 = -536870911 /\
  ConcentricSquare.edge_distance_value 536870913 1073741824 1073741824 = 536870913 /\
  ConcentricSquare.printed_value 536870913 1073741824 1073741824 <>
  ConcentricSquare.edge_distance_value 536870913 1073741824 1073741824.
Proof.
  assert (Hm : ConcentricSquare.grid_dim 536870913 = 1073741825)
    by (vm_compute; reflexivity).
  assert (Hp : ConcentricSquare.printed_value 536870913 1073741824 1073741824
               = -536870911).
  { rewrite printed_value_cell; [|rewrite Hm; lia|rewrite Hm; lia].
    rewrite Hm. vm_compute. reflexivity. }
  assert (He : ConcentricSquare.edge_distance_value 536870913 1073741824 1073741824
               = 536870913) by (vm_compute; reflexivity).
  split; [unfold Int.INT_MAX; lia|].
  split; [rewrite Hm; reflexivity|].
  split; [lia|]. split; [exact Hp|]. split; [exact He|].
  rewrite Hp, He. discriminate.
Qed.

(** The printed text of a grid, read back: its lines, split at the spaces,
    are the decimal forms of the values, row by row. *)
Lemma render_grid_read_back (g : list (list Z)) :
  map tokens (lines (ConcentricSquare.render_grid g)) = map (map fmt_d) g.
Proof.
  unfold ConcentricSquare.render_grid, lines.
  change ConcentricSquare.render_row
    with (fun r => cat (map (fun v => fmt_d v ++ String " "%char EmptyString) r)
                   ++ String "010"%char EmptyString).
  rewrite (fields_cat "010"%char
             (fun r => cat (map (fun v => fmt_d v ++ String " "%char EmptyString) r))).
  - rewrite map_map. apply map_ext. intros r. unfold tokens.
    apply fields_cat. intros v _. apply fmt_d_no_space.
  - intros r _. apply free_of_cat. apply Forall_forall.
    intros s Hs. apply in_map_iff in Hs. destruct Hs as [v [<- _]].
    rewrite free_of_app, fmt_d_no_nl. reflexivity.
Qed.

(** The cells of a grid of dimension [2n - 1], [n <= 2^30]: whichever
    formula the test selects, the value is at most [n], and it is [n] only
    in the first or last row or column. *)
Lemma cell_value_bound (n i j : Z) :
  1 <= n <= 1073741824 ->
  0 <= i < 2 * n - 1 -> 0 <= j < 2 * n - 1 ->
  ConcentricSquare.cell_value n (2 * n - 1) i j <= n /\
  (ConcentricSquare.cell_value n (2 * n - 1) i j = n ->
   i = 0 \/ j = 0 \/ i = 2 * n - 2 \/ j = 2 * n - 2).
Proof.
  intros Hn Hi Hj. rewrite cell_value_unfold by lia.
  destruct (Int.add i j <? 2 * n - 1); lia.
Qed.

(** C2 (amended to the sizes whose dimension is computed as [2n - 1]): for
    every [n] with [1 <= n <= 2^30], [print_concentric_square n] returns
    having printed [2n - 1] rows of [2n - 1] integers, each followed by a
    space; no value exceeds [n]; the value [n] is attained, and only in
    the first or last row or column; the centre is [1]; and [n = 1] gives
    the single cell [1]. *)
Theorem C2_square_shape (n : Z) :
  1 <= n <= 1073741824 ->
  run (ConcentricSquare.print_concentric_square n) =
    Some (tt, ConcentricSquare.render_grid (ConcentricSquare.grid n)) /\
  map tokens (lines (ConcentricSquare.render_grid (ConcentricSquare.grid n))) =
    map (map fmt_d) (ConcentricSquare.grid n) /\
  List.length (ConcentricSquare.grid n) = Z.to_nat (2 * n - 1) /\
  (forall r, In r (ConcentricSquare.grid n) ->
             List.length r = Z.to_nat (2 * n - 1)) /\
  (forall i j, 0 <= i < 2 * n - 1 -> 0 <= j < 2 * n - 1 ->
     ConcentricSquare.printed_value n i j <= n /\
     (ConcentricSquare.printed_value n i j = n ->
      i = 0 \/ j = 0 \/ i = 2 * n - 2 \/ j = 2 * n - 2)) /\
  ConcentricSquare.printed_value n 0 0 = n /\
  ConcentricSquare.printed_value n (n - 1) (n - 1) = 1 /\
  (n = 1 -> ConcentricSquare.grid n = [[1]]).
Proof.
  intros Hn.
  assert (Hm : ConcentricSquare.grid_dim n = 2 * n - 1)
    by (apply grid_dim_exact; lia).
  split; [apply emits_run, print_concentric_square_emits; lia|].
  split; [apply render_grid_read_back|].
  split; [now rewrite grid_length, Hm|].
  split; [intros r Hr; now rewrite (grid_row_length n r Hr), Hm|].
  split; [|split; [|split]].
  - intros i j Hi Hj.
    rewrite printed_value_cell by (rewrite Hm; lia).
    rewrite Hm. apply cell_value_bound; lia.
  - rewrite printed_value_cell by (rewrite Hm; lia).
    rewrite Hm, cell_value_unfold by lia.
    replace (Int.add 0 0) with 0 by reflexivity.
    destruct (Z.ltb_spec 0 (2 * n - 1)); lia.
  - rewrite printed_value_cell by (rewrite Hm; lia).
    rewrite Hm, cell_value_unfold by lia.
    unfold Int.add. rewrite wrap_id by int_range.
    destruct (Z.ltb_spec (n - 1 + (n - 1)) (2 * n - 1)); lia.
  - intros ->. vm_compute. reflexivity.
Qed.

Lemma C2_witness :
  run (ConcentricSquare.print_concentric_square 2) =
    Some (tt, ConcentricSquare.render_grid [[2; 2; 2]; [2; 1; 2]; [2; 2; 2]]) /\
  ConcentricSquare.printed_value 2 1 1 = 1.
Proof.
  destruct (C2_square_shape 2) as [H [_ [_ [_ [_ [_ [Hc _]]]]]]]; [lia|].
  split; [exact H | exact Hc].
Defined.

(** C2 as stated, for every [n >= 1], fails: at [n = 2^30 + 1] the product
    [2 * n] is not an [int], the dimension comes out negative, the outer
    loop is never entered and nothing is printed: no row instead of
    [2n - 1]. *)
Lemma C2_counterexample :
  1 <= 1073741825 <= Int.INT_MAX /\
  run (ConcentricSquare.print_concentric_square 1073741825) =
    Some (tt, EmptyString) /\
  ConcentricSquare.grid 1073741825 = [] /\
  List.length (ConcentricSquare.grid 1073741825) <>
    Z.to_nat (2 * 1073741825 - 1).
Proof.
  assert (Hg : ConcentricSquare.grid 1073741825 = []) by (vm_compute; reflexivity).
  split; [unfold Int.INT_MAX; lia|].
  split; [vm_compute; reflexivity|].
  split; [exact Hg|].
  rewrite Hg. intros H. apply (f_equal Z.of_nat) in H.
  rewrite Z2Nat.id in H by lia. discriminate H.
Qed.

(** ** Symmetries *)

Lemma MAX_comm (a b : Z) : ConcentricSquare.MAX a b = ConcentricSquare.MAX b a.
Proof. rewrite !MAX_max. apply Z.max_comm. Qed.

(** The cell formula does not distinguish its two coordinates, whatever
    the arithmetic does. *)
Lemma cell_value_transpose (n m i j : Z) :
  ConcentricSquare.cell_value n m i j = ConcentricSquare.cell_value n m j i.
Proof.
  unfold ConcentricSquare.cell_value.
  replace (Int.add j i) with (Int.add i j)
    by (unfold Int.add; f_equal; apply Z.add_comm).
  destruct (Int.add i j <? m); [apply MAX_comm | f_equal; apply MAX_comm].
Qed.

(** C4 (rotation amended to the sizes where no [int] computation
    overflows): for every [n >= 1] the printed grid is symmetric under
    transpose, the value at [(i, j)] being the value at [(j, i)]; for
    [1 <= n <= 2^29] it is also symmetric under the rotation by 180
    degrees, the value at [(i, j)] being the value at
    [(m - 1 - i, m - 1 - j)], [m = 2n - 1]. *)
Theorem C4_grid_symmetries (n i j : Z) :
  1 <= n ->
  0 <= i < ConcentricSquare.grid_dim n ->
  0 <= j < ConcentricSquare.grid_dim n ->
  ConcentricSquare.printed_value n i j = ConcentricSquare.printed_value n j i /\
  (n <= 536870912 ->
   ConcentricSquare.grid_dim n = 2 * n - 1 /\
   ConcentricSquare.printed_value n i j =
   ConcentricSquare.printed_value n (2 * n - 1 - 1 - i) (2 * n - 1 - 1 - j)).
Proof.
  intros Hn Hi Hj. split.
  - rewrite !printed_value_cell by lia. apply cell_value_transpose.
  - intros Hle.
    assert (Hm : ConcentricSquare.grid_dim n = 2 * n - 1)
      by (apply grid_dim_exact; lia).
    split; [exact Hm|].
    rewrite Hm in Hi, Hj.
    rewrite !printed_value_cell by (rewrite Hm; lia).
    rewrite Hm. rewrite !cell_value_exact by lia.
    destruct (Z.ltb_spec (i + j) (2 * n - 1));
      destruct (Z.ltb_spec (2 * n - 1 - 1 - i + (2 * n - 1 - 1 - j)) (2 * n - 1));
      lia.
Qed.

Lemma C4_witness :
  ConcentricSquare.printed_value 4 1 5 = ConcentricSquare.printed_value 4 5 1 /\
  ConcentricSquare.printed_value 4 1 5 =
  ConcentricSquare.printed_value 4 (2 * 4 - 1 - 1 - 1) (2 * 4 - 1 - 1 - 5).
Proof.
  assert (Hm : ConcentricSquare.grid_dim 4 = 7) by reflexivity.
  destruct (C4_grid_symmetries 4 1 5) as [Ht Hr];
    [lia | rewrite Hm; lia | rewrite Hm; lia |].
  split; [exact Ht | apply Hr; lia].
Defined.

(** C4 as stated fails for the rotation: at [n = 2^29 + 1] the first cell
    [(0, 0)] holds [n], and its image [(m - 1, m - 1)], where [i + j]
    is not an [int], holds [2 - n]. *)
Lemma C4_counterexample :
  1 <= 536870913 <= Int.INT_MAX /\
  ConcentricSquare.grid_dim 536870913 = 2 * 536870913 - 1 /\
  ConcentricSquare.printed_value 536870913 0 0 = 536870913 /\
  ConcentricSquare.printed_value 536870913
    (2 * 536870913 - 1 - 1 - 0) (2 * 536870913 - 1 - 1 - 0) = -536870911 /\
  ConcentricSquare.printed_value 536870913 0 0 <>
  ConcentricSquare.printed_value 536870913
    (2 * 536870913 - 1 - 1 - 0) (2 * 536870913 - 1 - 1 - 0).
Proof.
  assert (Hm : ConcentricSquare.grid_dim 536870913 = 1073741825)
    by (vm_compute; reflexivity).
  assert (H0 : ConcentricSquare.printed_value 536870913 0 0 = 536870913).
  { rewrite printed_value_cell; [|rewrite Hm; lia|rewrite Hm; lia].
    rewrite Hm. vm_compute. reflexivity. }
  assert (H1 : ConcentricSquare.printed_value 536870913
                 (2 * 536870913 - 1 - 1 - 0) (2 * 536870913 - 1 - 1 - 0)
               = -536870911).
  { rewrite printed_value_cell; [|rewrite Hm; lia|rewrite Hm; lia].
    rewrite Hm. vm_compute. reflexivity. }
  split; [unfold Int.INT_MAX; lia|].
  split; [rewrite Hm; reflexivity|].
  split; [exact H0|]. split; [exact H1|].
  rewrite H0, H1. discriminate.
Qed.

(** ** The two splits along the anti-diagonal *)

(** The sum of two coordinates of a grid of dimension [m] is reduced to
    [m - 1] only when it is [m - 1]. *)
Lemma add_on_diagonal (m i j : Z) :
  m <= Int.INT_MAX -> 0 <= i < m -> 0 <= j < m ->
  Int.add i j = m - 1 -> i + j = m - 1.
Proof.
  intros Hm Hi Hj. unfold Int.add.
  destruct (Z_le_gt_dec (i + j) Int.INT_MAX) as [Hle|Hgt].
  - rewrite wrap_id by int_range. trivial.
  - rewrite wrap_above by int_range. int_range.
Qed.

(** C6: for every [n >= 1] and every cell [(i, j)] of the grid on the
    anti-diagonal [i + j = m - 1], the two formulas agree, as the code
    computes them and in exact arithmetic:
    [max (n - i) (n - j) = max (i - n) (j - n) + 2]; hence the split that
    gives the anti-diagonal to the lower-right formula produces the same
    value in every cell of the grid. *)
Theorem C6_splits_agree (n i j : Z) :
  1 <= n <= Int.INT_MAX ->
  0 <= i < ConcentricSquare.grid_dim n ->
  0 <= j < ConcentricSquare.grid_dim n ->
  (i + j = ConcentricSquare.grid_dim n - 1 ->
   ConcentricSquare.MAX (Int.sub n i) (Int.sub n j) =
     Int.add (ConcentricSquare.MAX (Int.sub i n) (Int.sub j n)) 2 /\
   Z.max (n - i) (n - j) = Z.max (i - n) (j - n) + 2) /\
  ConcentricSquare.cell_value n (ConcentricSquare.grid_dim n) i j =
  ConcentricSquare.cell_value_alt n (ConcentricSquare.grid_dim n) i j.
Proof.
  intros Hn Hi Hj.
  destruct (Z_le_gt_dec n 1073741824) as [Hle|Hgt].
  2:{ pose proof (grid_dim_negative n ltac:(lia)). lia. }
  assert (Hm : ConcentricSquare.grid_dim n = 2 * n - 1)
    by (apply grid_dim_exact; lia).
  rewrite Hm in *.
  assert (Hsub : Int.sub (2 * n - 1) 1 = 2 * n - 2).
  { unfold Int.sub. rewrite wrap_id by int_range. lia. }
  assert (Harith : ConcentricSquare.MAX (Int.sub n i) (Int.sub n j) = Z.max (n - i) (n - j) /\
                   Int.add (ConcentricSquare.MAX (Int.sub i n) (Int.sub j n)) 2 =
                   Z.max (i - n) (j - n) + 2).
  { rewrite !MAX_max. unfold Int.sub.
    rewrite (wrap_id (n - i)), (wrap_id (n - j)), (wrap_id (i - n)),
      (wrap_id (j - n)) by int_range.
    split; [reflexivity|]. unfold Int.add. apply wrap_id. int_range. }
  destruct Harith as [Hup Hlow].
  split.
  - intros Hd. rewrite Hup, Hlow. split; lia.
  - unfold ConcentricSquare.cell_value, ConcentricSquare.cell_value_alt.
    rewrite Hsub, Hup, Hlow.
    destruct (Z.ltb_spec (Int.add i j) (2 * n - 1)) as [H1|H1];
      destruct (Z.ltb_spec (Int.add i j) (2 * n - 2)) as [H2|H2];
      try reflexivity; try lia.
    assert (Hd : i + j = 2 * n - 1 - 1).
    { apply add_on_diagonal; try lia. unfold Int.INT_MAX. lia. }
    lia.
Qed.

Lemma C6_witness :
  ConcentricSquare.MAX (Int.sub 4 2) (Int.sub 4 4) =
    Int.add (ConcentricSquare.MAX (Int.sub 2 4) (Int.sub 4 4)) 2 /\
  ConcentricSquare.cell_value 4 (ConcentricSquare.grid_dim 4) 2 4 =
  ConcentricSquare.cell_value_alt 4 (ConcentricSquare.grid_dim 4) 2 4.
Proof.
  assert (Hm : ConcentricSquare.grid_dim 4 = 7) by reflexivity.
  destruct (C6_splits_agree 4 2 4) as [Hd Hc];
    [unfold Int.INT_MAX; lia | rewrite Hm; lia | rewrite Hm; lia |].
  split; [apply Hd; rewrite Hm; reflexivity | exact Hc].
Defined.

(** ** The loop of [print_triangle] *)

Lemma T_0 : Triangle.T 0 = 0.
Proof. reflexivity. Qed.

(** [T(k + 1) = T(k) + (k + 1)], the identity the row test relies on. *)
Lemma T_succ (k : Z) : Triangle.T (k + 1) = Triangle.T k + (k + 1).
Proof.
  unfold Triangle.T.
  replace ((k + 1) * (k + 1 + 1)) with (k * (k + 1) + (k + 1) * 2) by ring.
  now rewrite Z.div_add by lia.
Qed.

Lemma T_mono (a b : Z) : 0 <= a <= b -> Triangle.T a <= Triangle.T b.
Proof. intros H. unfold Triangle.T. apply Z.div_le_mono; nia. Qed.

Lemma T_nonneg (k : Z) : 0 <= k -> 0 <= Triangle.T k.
Proof. intros H. rewrite <- T_0. apply T_mono. lia. Qed.

Lemma T_le_product (k : Z) : 0 <= k -> Triangle.T k <= k * (k + 1).
Proof.
  intros H. unfold Triangle.T.
  apply Z.div_le_upper_bound; nia.
Qed.

(** Up to [46340] the product [row * (row + 1)] is an [int], and the
    expression of the source is the triangular number. *)
Lemma triangular_exact (k : Z) :
  0 <= k <= 46340 ->
  Int.div (Int.mul k (Int.add k 1)) 2 = Triangle.T k.
Proof.
  intros Hk. unfold Int.div, Int.mul, Int.add.
  rewrite (wrap_id (k + 1)) by int_range.
  assert (Hp : 0 <= k * (k + 1) <= 2147483647) by nia.
  rewrite (wrap_id (k * (k + 1))) by int_range.
  assert (Hq : Z.quot (k * (k + 1)) 2 = k * (k + 1) / 2).
  { apply Z.quot_div_nonneg; lia. }
  rewrite Hq. fold (Triangle.T k). apply wrap_id.
  pose proof (T_nonneg k ltac:(lia)). pose proof (T_le_product k ltac:(lia)).
  int_range.
Qed.

(** Past [total] the loop is over. *)
Lemma star_loop_done (fuel : nat) (total i row : Z) :
  total < i -> Triangle.star_loop fuel total i row = ret tt.
Proof.
  intros H. destruct fuel; simpl;
    destruct (Z.leb_spec i total); try lia; reflexivity.
Qed.

Lemma glyphs_succ_sub (r c : nat) :
  (c < r)%nat -> Triangle.glyphs (r - c) = "* " ++ Triangle.glyphs (r - S c).
Proof.
  intros H. replace (r - c)%nat with (S (r - S c)) by lia. reflexivity.
Qed.

Section StarLoop.

Variable n : nat.
Hypothesis n_small : Z.of_nat n <= 46340.

Let total : Z := Triangle.T (Z.of_nat n).

(** The invariant of the loop: in row [r], with [c] glyphs of it already
    printed, the position is [T(r - 1) + c + 1]; from there the loop
    completes row [r] and prints rows [r + 1] to [n]. *)
Lemma star_loop_emits :
  forall (fuel r c : nat) (i : Z),
    (1 <= r <= n)%nat -> (c < r)%nat ->
    i = Triangle.T (Z.of_nat r - 1) + Z.of_nat c + 1 ->
    (Z.to_nat (total - i + 1) <= fuel)%nat ->
    emits (Triangle.star_loop fuel total i (Z.of_nat r))
          (Triangle.glyphs (r - c) ++ nl ++
           cat (map (fun k => Triangle.glyphs k ++ nl) (seq (S r) (n - r)))).
Proof.
  induction fuel as [|fuel IH]; intros r c i Hr Hc Hi Hfuel.
  - exfalso.
    assert (Triangle.T (Z.of_nat r) <= total)
      by (apply T_mono; lia).
    pose proof (T_succ (Z.of_nat r - 1)) as Hs.
    replace (Z.of_nat r - 1 + 1) with (Z.of_nat r) in Hs by lia. lia.
  - assert (Hrn : Triangle.T (Z.of_nat r) <= total)
      by (apply T_mono; lia).
    pose proof (T_succ (Z.of_nat r - 1)) as Hs.
    replace (Z.of_nat r - 1 + 1) with (Z.of_nat r) in Hs by lia.
    pose proof (T_nonneg (Z.of_nat r - 1) ltac:(lia)) as Hpos.
    assert (Htot : total <= 2147483647 - 1).
    { pose proof (T_le_product (Z.of_nat n) ltac:(lia)).
      unfold total, Triangle.T in *.
      assert (Z.of_nat n * (Z.of_nat n + 1) <= 2147441940) by nia.
      apply Z.div_le_upper_bound; lia. }
    cbn [Triangle.star_loop].
    destruct (Z.leb_spec i total) as [Hle|Hgt]; [|lia].
    rewrite triangular_exact by lia.
    assert (Hi1 : Int.add i 1 = i + 1).
    { unfold Int.add. apply wrap_id. int_range. }
    assert (Hr1 : Int.add (Z.of_nat r) 1 = Z.of_nat (S r)).
    { unfold Int.add. rewrite wrap_id by int_range. lia. }
    rewrite Hi1, Hr1.
    rewrite (glyphs_succ_sub r c Hc), append_assoc.
    apply emits_seq; [apply emits_printf|].
    destruct (Z.eqb_spec i (Triangle.T (Z.of_nat r))) as [Heq|Hne].
    + (* the row is complete *)
      assert (Hcr : S c = r) by lia.
      replace (r - S c)%nat with O by lia.
      change (Triangle.glyphs 0) with EmptyString. rewrite append_nil_l.
      apply emits_seq; [apply emits_printf|].
      destruct (Nat.eq_dec r n) as [->|Hlt].
      * replace (n - n)%nat with O by lia. cbn [seq map cat fold_right].
        rewrite star_loop_done by (unfold total; lia). apply emits_ret.
      * replace (n - r)%nat with (S (n - S r)) by lia.
        cbn [seq map]. rewrite cat_cons, append_assoc.
        replace (Triangle.glyphs (S r)) with (Triangle.glyphs (S r - 0))
          by (f_equal; lia).
        apply IH; try lia.
        replace (Z.of_nat (S r) - 1) with (Z.of_nat r) by lia. lia.
    + (* more glyphs of the same row *)
      apply IH; try lia.
Qed.

End StarLoop.

(** For heights up to [46340] the function returns and has printed the
    rows of the triangle. *)
Lemma print_triangle_emits (n : Z) :
  1 <= n <= 46340 ->
  emits (Triangle.print_triangle n) (cat (Triangle.triangle_rows (Z.to_nat n))).
Proof.
  intros Hn. unfold Triangle.print_triangle.
  destruct (Z.leb_spec n 0) as [Hle|Hlt]; [lia|]. cbv zeta.
  rewrite triangular_exact by lia.
  pose proof (star_loop_emits (Z.to_nat n) ltac:(lia)
                (Z.to_nat (Triangle.T n)) 1 0 1) as H.
  rewrite Z2Nat.id in H by lia.
  change (Z.of_nat 1) with 1 in H.
  unfold Triangle.triangle_rows.
  replace (Z.to_nat n) with (S (Z.to_nat n - 1)) by lia.
  cbn [seq map]. rewrite cat_cons, append_assoc.
  apply H; try lia.
  reflexivity.
Qed.

Lemma glyphs_no_nl (k : nat) : free_of "010"%char (Triangle.glyphs k) = true.
Proof. induction k as [|k IH]; [reflexivity|]. simpl. exact IH. Qed.

(** A row of [k] glyphs, split at the spaces, is [k] asterisks. *)
Lemma glyphs_tokens (k : nat) : tokens (Triangle.glyphs k) = repeat "*" k.
Proof.
  unfold tokens. induction k as [|k IH]; [reflexivity|].
  simpl. simpl in IH. rewrite IH. reflexivity.
Qed.

(** The printed triangle, read back line by line. *)
Lemma triangle_rows_lines (n : nat) :
  lines (cat (Triangle.triangle_rows n)) = map Triangle.glyphs (seq 1 n).
Proof.
  unfold lines, Triangle.triangle_rows.
  change (fun k => Triangle.glyphs k ++ nl)
    with (fun k => Triangle.glyphs k ++ String "010"%char EmptyString).
  apply fields_cat. intros k _. apply glyphs_no_nl.
Qed.

(** C3 (amended to the heights whose product [n * (n + 1)] is an [int]):
    for every [n] with [1 <= n <= 46340], [print_triangle n] returns having
    printed exactly [n] rows; row [k], counted from 1, is [k] glyphs, each
    the two characters asterisk and space, immediately followed by a line
    feed, the last row included. Read back, the text has the [n] lines
    [glyphs 1] to [glyphs n], and line [k] has [k] tokens, all asterisks. *)
Theorem C3_triangle_rows (n : Z) :
  1 <= n <= 46340 ->
  run (Triangle.print_triangle n) =
    Some (tt, cat (Triangle.triangle_rows (Z.to_nat n))) /\
  List.length (Triangle.triangle_rows (Z.to_nat n)) = Z.to_nat n /\
  (forall k : nat, (1 <= k <= Z.to_nat n)%nat ->
     nth (k - 1) (Triangle.triangle_rows (Z.to_nat n)) EmptyString =
     Triangle.glyphs k ++ nl) /\
  (forall k : nat, Triangle.glyphs k = cat (repeat "* " k)) /\
  lines (cat (Triangle.triangle_rows (Z.to_nat n))) =
    map Triangle.glyphs (seq 1 (Z.to_nat n)) /\
  (forall k : nat, tokens (Triangle.glyphs k) = repeat "*" k).
Proof.
  intros Hn.
  split; [apply emits_run, print_triangle_emits; lia|].
  split; [unfold Triangle.triangle_rows; now rewrite length_map, length_seq|].
  split.
  { intros k Hk. unfold Triangle.triangle_rows.
    rewrite (nth_indep _ EmptyString (Triangle.glyphs 0 ++ nl))
      by (rewrite length_map, length_seq; lia).
    rewrite (map_nth (fun k => Triangle.glyphs k ++ nl)).
    rewrite seq_nth by lia. f_equal. f_equal. lia. }
  split.
  { induction k as [|k IH]; [reflexivity|].
    cbn [repeat Triangle.glyphs]. rewrite cat_cons. now rewrite IH. }
  split; [apply triangle_rows_lines | apply glyphs_tokens].
Qed.

Lemma C3_witness :
  run (Triangle.print_triangle 3) =
    Some (tt, line "* " ++ line "* * " ++ line "* * * ").
Proof.
  destruct (C3_triangle_rows 3) as [H _]; [lia|]. exact H.
Defined.

Lemma triangle_rows_nonempty (n : nat) :
  (0 < n)%nat -> cat (Triangle.triangle_rows n) <> EmptyString.
Proof.
  destruct n as [|n]; [lia|]. intros _.
  unfold Triangle.triangle_rows. cbn [seq map]. rewrite cat_cons.
  discriminate.
Qed.

(** C3 as stated, for every [n >= 1], fails: at [n = 46341] the product
    [n * (n + 1) = 2147534622] is not an [int]; reduced, it is negative,
    so is [total], the loop is never entered and nothing is printed. *)
Lemma C3_counterexample :
  1 <= 46341 <= Int.INT_MAX /\
  Int.mul 46341 (Int.add 46341 1) = -2147432674 /\
  run (Triangle.print_triangle 46341) = Some (tt, EmptyString) /\
  run (Triangle.print_triangle 46341) <>
    Some (tt, cat (Triangle.triangle_rows (Z.to_nat 46341))).
Proof.
  assert (Hrun : run (Triangle.print_triangle 46341) = Some (tt, EmptyString))
    by (vm_compute; reflexivity).
  split; [unfold Int.INT_MAX; lia|].
  split; [vm_compute; reflexivity|].
  split; [exact Hrun|].
  rewrite Hrun. intros H.
  assert (He : cat (Triangle.triangle_rows (Z.to_nat 46341)) = EmptyString)
    by congruence.
  revert He. apply triangle_rows_nonempty. lia.
Qed.

(** ** The loops of [visualize_regions] *)

Section RegionLoops.

Import ConcentricSquare.

Variable m : Z.
Hypothesis m_int : m <= Int.INT_MAX.

Lemma region_row_loop_emits (i : Z) :
  forall (fuel : nat) (j : Z),
    0 <= j -> (Z.to_nat (m - j) <= fuel)%nat ->
    emits (region_row_loop fuel m i j)
          (cat (map (fun j' => if Int.add i j' <? m then "U " else "L ")
                    (zseq j (Z.to_nat (m - j))))).
Proof.
  induction fuel as [|fuel IH]; intros j Hj Hfuel; simpl;
    destruct (Z.ltb_spec j m) as [E|E];
    try (replace (Z.to_nat (m - j)) with O by lia; apply emits_ret).
  - lia.
  - rewrite (to_nat_succ m j E) in *. cbn [zseq map]. rewrite cat_cons.
    apply emits_seq.
    + destruct (Int.add i j <? m); apply emits_printf.
    + rewrite (add_1_exact j m Hj E m_int). apply IH; lia.
Qed.

Lemma region_loop_emits :
  forall (fuel : nat) (i : Z),
    0 <= i -> (Z.to_nat (m - i) <= fuel)%nat ->
    emits (region_loop fuel m i)
          (cat (map (region_row m) (zseq i (Z.to_nat (m - i))))).
Proof.
  induction fuel as [|fuel IH]; intros i Hi Hfuel; simpl;
    destruct (Z.ltb_spec i m) as [E|E];
    try (replace (Z.to_nat (m - i)) with O by lia; apply emits_ret).
  - lia.
  - rewrite (to_nat_succ m i E) in *. cbn [zseq map]. rewrite cat_cons.
    unfold region_row at 1. rewrite append_assoc.
    apply emits_seq.
    + pose proof (region_row_loop_emits i (Z.to_nat m) 0) as H.
      rewrite Z.sub_0_r in H. apply H; lia.
    + apply emits_seq; [apply emits_printf|].
      rewrite (add_1_exact i m Hi E m_int). apply IH; lia.
Qed.

End RegionLoops.

(** [visualize_regions] has no test on its argument: for every [n] it
    prints the heading, one row of letters per row of the grid, and a
    closing line feed. *)
Lemma visualize_regions_emits (n : Z) :
  emits (ConcentricSquare.visualize_regions n)
        (line "Region visualization (U = Upper-left, L = Lower-right):" ++
         cat (map (ConcentricSquare.region_row (ConcentricSquare.grid_dim n))
                  (zseq 0 (Z.to_nat (ConcentricSquare.grid_dim n)))) ++
         nl).
Proof.
  unfold ConcentricSquare.visualize_regions. cbv zeta.
  fold (ConcentricSquare.grid_dim n).
  pose proof (grid_dim_int n) as [_ Hm].
  apply emits_seq; [apply emits_printf|].
  apply emits_seq; [|apply emits_printf].
  pose proof (region_loop_emits (ConcentricSquare.grid_dim n) Hm
                (Z.to_nat (ConcentricSquare.grid_dim n)) 0) as H.
  rewrite Z.sub_0_r in H. apply H; lia.
Qed.

(** ** Termination for every argument *)

Lemma print_concentric_square_nonpositive (n : Z) :
  n <= 0 ->
  emits (ConcentricSquare.print_concentric_square n) (line error_message).
Proof.
  intros Hn. unfold ConcentricSquare.print_concentric_square.
  destruct (Z.leb_spec n 0); [apply emits_printf | lia].
Qed.

Lemma print_triangle_nonpositive (n : Z) :
  n <= 0 -> emits (Triangle.print_triangle n) (line error_message).
Proof.
  intros Hn. unfold Triangle.print_triangle.
  destruct (Z.leb_spec n 0); [apply emits_printf | lia].
Qed.

Lemma print_concentric_square_returns (n : Z) :
  returns (ConcentricSquare.print_concentric_square n).
Proof.
  destruct (Z_le_gt_dec n 0).
  - eexists. apply print_concentric_square_nonpositive. lia.
  - eexists. apply print_concentric_square_emits. lia.
Qed.

(** The loop of [print_triangle] ends whatever the row counter does, as
    long as the position can be incremented without leaving the range. *)
Lemma star_loop_returns (total : Z) :
  total < Int.INT_MAX ->
  forall (fuel : nat) (i row : Z),
    Int.INT_MIN <= i -> (Z.to_nat (total - i + 1) <= fuel)%nat ->
    returns (Triangle.star_loop fuel total i row).
Proof.
  intros Htot. induction fuel as [|fuel IH]; intros i row Hi Hfuel;
    cbn [Triangle.star_loop]; destruct (Z.leb_spec i total) as [E|E];
    try (eexists; apply emits_ret).
  - lia.
  - assert (Hi1 : Int.add i 1 = i + 1).
    { unfold Int.add. apply wrap_id. int_range. }
    rewrite Hi1.
    destruct (i =? Int.div (Int.mul row (Int.add row 1)) 2).
    + destruct (IH (i + 1) (Int.add row 1)) as [s Hs]; [lia | lia |].
      eexists. apply emits_seq; [apply emits_printf|].
      apply emits_seq; [apply emits_printf | exact Hs].
    + destruct (IH (i + 1) row) as [s Hs]; [lia | lia |].
      eexists. apply emits_seq; [apply emits_printf | exact Hs].
Qed.

Lemma div_2_bound (x : Z) :
  Int.in_range x -> -1073741824 <= Int.div x 2 <= 1073741823.
Proof.
  intros Hx. unfold Int.div.
  assert (Hq : -1073741824 <= Z.quot x 2 <= 1073741823).
  { unfold Int.in_range, Int.INT_MIN, Int.INT_MAX in Hx.
    Z.to_euclidean_division_equations. lia. }
  rewrite wrap_id by int_range. exact Hq.
Qed.

Lemma print_triangle_returns (n : Z) : returns (Triangle.print_triangle n).
Proof.
  unfold Triangle.print_triangle.
  destruct (n <=? 0); [eexists; apply emits_printf|]. cbv zeta.
  pose proof (div_2_bound (Int.mul n (Int.add n 1)) (wrap_in_range _)) as Hb.
  apply star_loop_returns.
  - unfold Int.INT_MAX. lia.
  - unfold Int.INT_MIN. lia.
  - lia.
Qed.

(** ** The two [main] functions *)

Lemma print_concentric_square_3 :
  emits (ConcentricSquare.print_concentric_square 3)
        (ConcentricSquare.render_grid ConcentricSquare.square_3).
Proof.
  change ConcentricSquare.square_3 with (ConcentricSquare.grid 3).
  apply print_concentric_square_emits. lia.
Qed.

Lemma print_concentric_square_5 :
  emits (ConcentricSquare.print_concentric_square 5)
        (ConcentricSquare.render_grid ConcentricSquare.square_5).
Proof.
  change ConcentricSquare.square_5 with (ConcentricSquare.grid 5).
  apply print_concentric_square_emits. lia.
Qed.

(** The output of the square program on an input that parses: banner,
    line feed, the visualization when [size <= 7], the heading and the
    pattern of [size], a line feed, and the two examples. *)
Lemma square_main_parsed (size : Z) (s_vis s_pat : string) :
  emits (if size <=? 7 then ConcentricSquare.visualize_regions size else ret tt)
        s_vis ->
  emits (ConcentricSquare.print_concentric_square size) s_pat ->
  yields (ConcentricSquare.main (Parsed size)) 0
         (ConcentricSquare.banner ++ nl ++ s_vis ++
          line "Concentric square pattern:" ++ s_pat ++ nl ++
          ConcentricSquare.examples).
Proof.
  intros Hvis Hpat.
  unfold ConcentricSquare.main, ConcentricSquare.banner,
    ConcentricSquare.examples.
  rewrite !append_assoc.
  apply yields_seq; [apply emits_printf|].
  apply yields_seq; [apply emits_printf|].
  apply yields_seq; [apply emits_printf|].
  apply yields_seq; [apply emits_printf|].
  apply yields_seq; [exact Hvis|].
  apply yields_seq; [apply emits_printf|].
  apply yields_seq; [exact Hpat|].
  apply yields_seq; [apply emits_printf|].
  rewrite <- (append_assoc nl (line "Examples of other sizes:")).
  apply yields_seq; [apply emits_printf|].
  apply yields_seq; [apply emits_printf|].
  apply yields_seq; [apply emits_printf|].
  apply yields_seq; [apply print_concentric_square_3|].
  rewrite <- (append_assoc nl (line "n = 5:")).
  apply yields_seq; [apply emits_printf|].
  rewrite <- (append_nil_r (ConcentricSquare.render_grid ConcentricSquare.square_5)).
  apply yields_seq; [apply print_concentric_square_5 | apply yields_ret].
Qed.

Lemma square_main_noparse :
  yields (ConcentricSquare.main NoParse) 1
         (ConcentricSquare.banner ++ line invalid_input_message).
Proof.
  unfold ConcentricSquare.main, ConcentricSquare.banner.
  rewrite !append_assoc.
  apply yields_seq; [apply emits_printf|].
  apply yields_seq; [apply emits_printf|].
  apply yields_seq; [apply emits_printf|].
  rewrite <- (append_nil_r (line invalid_input_message)).
  apply yields_seq; [apply emits_printf | apply yields_ret].
Qed.

Lemma visualize_gate_returns (size : Z) :
  returns (if size <=? 7 then ConcentricSquare.visualize_regions size else ret tt).
Proof.
  destruct (size <=? 7); eexists;
    [apply visualize_regions_emits | apply emits_ret].
Qed.

Lemma print_triangle_3 :
  emits (Triangle.print_triangle 3) (cat (Triangle.triangle_rows 3)).
Proof. apply (print_triangle_emits 3). lia. Qed.

Lemma print_triangle_6 :
  emits (Triangle.print_triangle 6) (cat (Triangle.triangle_rows 6)).
Proof. apply (print_triangle_emits 6). lia. Qed.

(** The output of the triangle program on an input that parses. *)
Lemma triangle_main_parsed (size : Z) (s_pat : string) :
  emits (Triangle.print_triangle size) s_pat ->
  yields (Triangle.main (Parsed size)) 0
         (Triangle.banner ++ nl ++ s_pat ++ nl ++ Triangle.examples).
Proof.
  intros Hpat.
  unfold Triangle.main, Triangle.banner, Triangle.examples.
  rewrite !append_assoc.
  apply yields_seq; [apply emits_printf|].
  apply yields_seq; [apply emits_printf|].
  apply yields_seq; [apply emits_printf|].
  apply yields_seq; [apply emits_printf|].
  apply yields_seq; [exact Hpat|].
  apply yields_seq; [apply emits_printf|].
  rewrite <- (append_assoc nl (line "Examples of other sizes:")).
  apply yields_seq; [apply emits_printf|].
  apply yields_seq; [apply emits_printf|].
  apply yields_seq; [apply emits_printf|].
  apply yields_seq; [apply print_triangle_3|].
  rewrite <- (append_assoc nl (line "n = 6:")).
  apply yields_seq; [apply emits_printf|].
  rewrite <- (append_nil_r (cat (Triangle.triangle_rows 6))).
  apply yields_seq; [apply print_triangle_6 | apply yields_ret].
Qed.

Lemma triangle_main_noparse :
  yields (Triangle.main NoParse) 1
         (Triangle.banner ++ line invalid_input_message).
Proof.
  unfold Triangle.main, Triangle.banner.
  rewrite !append_assoc.
  apply yields_seq; [apply emits_printf|].
  apply yields_seq; [apply emits_printf|].
  apply yields_seq; [apply emits_printf|].
  rewrite <- (append_nil_r (line invalid_input_message)).
  apply yields_seq; [apply emits_printf | apply yields_ret].
Qed.

(** ** Concrete output and error handling *)

(** C5: [print_concentric_square 4] prints exactly the seven rows below,
    every integer followed by one space and every row by a line feed. *)
Theorem C5_square_of_size_4 :
  run (ConcentricSquare.print_concentric_square 4) =
    Some (tt,
          line "4 4 4 4 4 4 4 " ++
          line "4 3 3 3 3 3 4 " ++
          line "4 3 2 2 2 3 4 " ++
          line "4 3 2 1 2 3 4 " ++
          line "4 3 2 2 2 3 4 " ++
          line "4 3 3 3 3 3 4 " ++
          line "4 4 4 4 4 4 4 ") /\
  ConcentricSquare.grid 4 =
    [[4; 4; 4; 4; 4; 4; 4];
     [4; 3; 3; 3; 3; 3; 4];
     [4; 3; 2; 2; 2; 3; 4];
     [4; 3; 2; 1; 2; 3; 4];
     [4; 3; 2; 2; 2; 3; 4];
     [4; 3; 3; 3; 3; 3; 4];
     [4; 4; 4; 4; 4; 4; 4]].
Proof. split; vm_compute; reflexivity. Qed.

(** C7: for every [n <= 0], [print_concentric_square n] and
    [print_triangle n] return having printed the error message and nothing
    else, so no row of a pattern; the caller goes on: both [main] functions
    print their examples after it and end with status 0. *)
Theorem C7_nonpositive_size_rejected (n : Z) :
  n <= 0 ->
  run (ConcentricSquare.print_concentric_square n) =
    Some (tt, line error_message) /\
  run (Triangle.print_triangle n) = Some (tt, line error_message) /\
  (exists s_vis,
     run (ConcentricSquare.main (Parsed n)) =
       Some (0, ConcentricSquare.banner ++ nl ++ s_vis ++
                line "Concentric square pattern:" ++ line error_message ++
                nl ++ ConcentricSquare.examples)) /\
  run (Triangle.main (Parsed n)) =
    Some (0, Triangle.banner ++ nl ++ line error_message ++ nl ++
             Triangle.examples).
Proof.
  intros Hn.
  pose proof (print_concentric_square_nonpositive n Hn) as Hsq.
  pose proof (print_triangle_nonpositive n Hn) as Htr.
  split; [apply emits_run, Hsq|].
  split; [apply emits_run, Htr|].
  split.
  - destruct (visualize_gate_returns n) as [s_vis Hvis].
    exists s_vis. apply yields_run, square_main_parsed; assumption.
  - apply yields_run, triangle_main_parsed; assumption.
Qed.

Lemma C7_witness :
  run (ConcentricSquare.print_concentric_square (-5)) =
    Some (tt, line error_message) /\
  run (Triangle.print_triangle (-5)) = Some (tt, line error_message).
Proof.
  destruct (C7_nonpositive_size_rejected (-5)) as [H1 [H2 _]]; [lia|].
  split; [exact H1 | exact H2].
Defined.

(** C8: in both programs an input that does not parse as an integer ends
    in the message for invalid input and the status 1; for every parsed
    integer, positive or not, the program ends with the status 0. *)
Theorem C8_exit_status :
  run (ConcentricSquare.main NoParse) =
    Some (1, ConcentricSquare.banner ++ line invalid_input_message) /\
  run (Triangle.main NoParse) =
    Some (1, Triangle.banner ++ line invalid_input_message) /\
  (forall size, exists out,
      run (ConcentricSquare.main (Parsed size)) = Some (0, out)) /\
  (forall size, exists out,
      run (Triangle.main (Parsed size)) = Some (0, out)).
Proof.
  split; [apply yields_run, square_main_noparse|].
  split; [apply yields_run, triangle_main_noparse|].
  split; intros size.
  - destruct (visualize_gate_returns size) as [s_vis Hvis].
    destruct (print_concentric_square_returns size) as [s_pat Hpat].
    eexists. apply yields_run, (square_main_parsed size s_vis s_pat); assumption.
  - destruct (print_triangle_returns size) as [s_pat Hpat].
    eexists. apply yields_run, (triangle_main_parsed size s_pat); assumption.
Qed.

(** C9, at the inputs [0] and [-5]: [visualize_regions] does not reject a
    non-positive size. It computes [m], prints its heading and the closing
    line feed, and no error message; the square program, whose gate
    [size <= 7] lets every non-positive size through, prints that before
    the error message of [print_concentric_square]. *)
Theorem C9_visualize_regions_does_not_reject :
  run (ConcentricSquare.visualize_regions 0) =
    Some (tt, line "Region visualization (U = Upper-left, L = Lower-right):" ++ nl) /\
  run (ConcentricSquare.visualize_regions (-5)) =
    Some (tt, line "Region visualization (U = Upper-left, L = Lower-right):" ++ nl) /\
  run (ConcentricSquare.main (Parsed 0)) =
    Some (0, ConcentricSquare.banner ++ nl ++
             (line "Region visualization (U = Upper-left, L = Lower-right):" ++ nl) ++
             line "Concentric square pattern:" ++ line error_message ++
             nl ++ ConcentricSquare.examples).
Proof. repeat split; vm_compute; reflexivity. Qed.

(** C10: for every parsed integer [size], valid or not, the output of each
    program is the banner, the pattern step for [size], a line feed and
    then the two examples: the patterns of sizes 3 and 5 in the square
    program, of heights 3 and 6 in the triangle program. *)
Theorem C10_examples_always_printed (size : Z) :
  (exists s_vis s_pat,
     run (ConcentricSquare.print_concentric_square size) = Some (tt, s_pat) /\
     run (ConcentricSquare.main (Parsed size)) =
       Some (0, ConcentricSquare.banner ++ nl ++ s_vis ++
                line "Concentric square pattern:" ++ s_pat ++ nl ++
                ConcentricSquare.examples)) /\
  (exists s_pat,
     run (Triangle.print_triangle size) = Some (tt, s_pat) /\
     run (Triangle.main (Parsed size)) =
       Some (0, Triangle.banner ++ nl ++ s_pat ++ nl ++ Triangle.examples)) /\
  run (ConcentricSquare.print_concentric_square 3) =
    Some (tt, ConcentricSquare.render_grid ConcentricSquare.square_3) /\
  run (ConcentricSquare.print_concentric_square 5) =
    Some (tt, ConcentricSquare.render_grid ConcentricSquare.square_5) /\
  run (Triangle.print_triangle 3) = Some (tt, cat (Triangle.triangle_rows 3)) /\
  run (Triangle.print_triangle 6) = Some (tt, cat (Triangle.triangle_rows 6)).
Proof.
  split; [|split].
  - destruct (visualize_gate_returns size) as [s_vis Hvis].
    destruct (print_concentric_square_returns size) as [s_pat Hpat].
    exists s_vis, s_pat.
    split; [apply emits_run, Hpat|].
    apply yields_run, square_main_parsed; assumption.
  - destruct (print_triangle_returns size) as [s_pat Hpat].
    exists s_pat.
    split; [apply emits_run, Hpat|].
    apply yields_run, triangle_main_parsed; assumption.
  - repeat split; vm_compute; reflexivity.
Qed.

(** * Further properties of the two programs *)

(** ** The rings of the square *)

(** Where no [int] computation overflows, the entry of the printed grid
    is the formula of the branch taken, in exact arithmetic. *)
Lemma printed_value_exact (n i j : Z) :
  1 <= n <= 536870912 ->
  0 <= i < 2 * n - 1 -> 0 <= j < 2 * n - 1 ->
  ConcentricSquare.printed_value n i j =
  if i + j <? 2 * n - 1
  then Z.max (n - i) (n - j)
  else Z.max (i - n) (j - n) + 2.
Proof.
  intros Hn Hi Hj.
  assert (Hm : ConcentricSquare.grid_dim n = 2 * n - 1)
    by (apply grid_dim_exact; lia).
  rewrite printed_value_cell by (rewrite Hm; lia).
  rewrite Hm. apply cell_value_exact; lia.
Qed.

(** X1: for [1 <= n <= 2^29] the value printed at [(i, j)] is one more
    than the distance, in rows or columns whichever is larger, from the
    centre cell [(n - 1, n - 1)]. *)
Theorem X1_centre_distance (n i j : Z) :
  1 <= n <= 536870912 ->
  0 <= i < 2 * n - 1 -> 0 <= j < 2 * n - 1 ->
  ConcentricSquare.printed_value n i j =
  Z.max (Z.abs (i - (n - 1))) (Z.abs (j - (n - 1))) + 1.
Proof.
  intros Hn Hi Hj. rewrite printed_value_exact by lia.
  destruct (Z.ltb_spec (i + j) (2 * n - 1)); lia.
Qed.

Lemma X1_witness :
  ConcentricSquare.printed_value 4 6 2 =
  Z.max (Z.abs (6 - (4 - 1))) (Z.abs (2 - (4 - 1))) + 1.
Proof. apply (X1_centre_distance 4 6 2); lia. Defined.

(** X2: for [1 <= n <= 2^29] every printed value lies between [1] and
    [n]; it is [n] exactly in the first and last row and column, and [1]
    exactly at the centre. *)
Theorem X2_ring_values (n i j : Z) :
  1 <= n <= 536870912 ->
  0 <= i < 2 * n - 1 -> 0 <= j < 2 * n - 1 ->
  1 <= ConcentricSquare.printed_value n i j <= n /\
  (ConcentricSquare.printed_value n i j = n <->
   i = 0 \/ j = 0 \/ i = 2 * n - 2 \/ j = 2 * n - 2) /\
  (ConcentricSquare.printed_value n i j = 1 <-> i = n - 1 /\ j = n - 1).
Proof.
  intros Hn Hi Hj. rewrite printed_value_exact by lia.
  destruct (Z.ltb_spec (i + j) (2 * n - 1)); lia.
Qed.

Lemma X2_witness :
  1 <= ConcentricSquare.printed_value 4 0 5 <= 4 /\
  ConcentricSquare.printed_value 4 0 5 = 4.
Proof.
  destruct (X2_ring_values 4 0 5) as [Hb [Hn _]]; [lia | lia | lia |].
  split; [exact Hb | apply Hn; now left].
Defined.

(** X3: for [1 <= n <= 2^29] the printed grid is its own mirror image,
    left to right and top to bottom: the value at [(i, j)] is the value at
    [(i, m - 1 - j)] and at [(m - 1 - i, j)], [m = 2n - 1]. *)
Theorem X3_mirror_symmetry (n i j : Z) :
  1 <= n <= 536870912 ->
  0 <= i < 2 * n - 1 -> 0 <= j < 2 * n - 1 ->
  ConcentricSquare.printed_value n i j =
    ConcentricSquare.printed_value n i (2 * n - 1 - 1 - j) /\
  ConcentricSquare.printed_value n i j =
    ConcentricSquare.printed_value n (2 * n - 1 - 1 - i) j.
Proof.
  intros Hn Hi Hj. rewrite !printed_value_exact by lia.
  destruct (Z.ltb_spec (i + j) (2 * n - 1));
    destruct (Z.ltb_spec (i + (2 * n - 1 - 1 - j)) (2 * n - 1));
    destruct (Z.ltb_spec (2 * n - 1 - 1 - i + j) (2 * n - 1)); lia.
Qed.

Lemma X3_witness :
  ConcentricSquare.printed_value 4 1 5 =
    ConcentricSquare.printed_value 4 1 (2 * 4 - 1 - 1 - 5) /\
  ConcentricSquare.printed_value 4 1 5 =
    ConcentricSquare.printed_value 4 (2 * 4 - 1 - 1 - 1) 5.
Proof. apply (X3_mirror_symmetry 4 1 5); lia. Defined.

(** X4: the squares are nested: for [2 <= n <= 2^29], the grid of size
    [n] without its first and last row and column is the grid of size
    [n - 1]. *)
Theorem X4_nested_squares (n i j : Z) :
  2 <= n <= 536870912 ->
  0 <= i < 2 * n - 3 -> 0 <= j < 2 * n - 3 ->
  ConcentricSquare.printed_value n (i + 1) (j + 1) =
  ConcentricSquare.printed_value (n - 1) i j.
Proof.
  intros Hn Hi Hj. rewrite !printed_value_exact by lia.
  destruct (Z.ltb_spec (i + 1 + (j + 1)) (2 * n - 1));
    destruct (Z.ltb_spec (i + j) (2 * (n - 1) - 1)); lia.
Qed.

Lemma X4_witness :
  ConcentricSquare.printed_value 4 (2 + 1) (0 + 1) =
  ConcentricSquare.printed_value (4 - 1) 2 0.
Proof. apply (X4_nested_squares 4 2 0); lia. Defined.

(** X5: a size whose double is not an [int] is not rejected: for
    [2^30 < n <= INT_MAX] the function prints nothing, neither a row nor
    the error message. *)
Theorem X5_square_silent_beyond_range (n : Z) :
  1073741824 < n <= Int.INT_MAX ->
  run (ConcentricSquare.print_concentric_square n) = Some (tt, EmptyString).
Proof.
  intros Hn. pose proof (grid_dim_negative n Hn) as Hneg.
  assert (Hg : ConcentricSquare.grid n = []).
  { unfold ConcentricSquare.grid. cbv zeta.
    replace (Z.to_nat (ConcentricSquare.grid_dim n)) with O by lia.
    reflexivity. }
  rewrite (emits_run _ _ (print_concentric_square_emits n ltac:(lia))).
  rewrite Hg. reflexivity.
Qed.

Lemma X5_witness :
  run (ConcentricSquare.print_concentric_square 2000000000) =
    Some (tt, EmptyString).
Proof. apply X5_square_silent_beyond_range. unfold Int.INT_MAX. lia. Defined.

(** ** The region visualization *)

Lemma zseq_app (a b : nat) :
  forall start : Z,
    zseq start (a + b) = (zseq start a ++ zseq (start + Z.of_nat a) b)%list.
Proof.
  induction a as [|a IH]; intros start.
  - simpl. f_equal. lia.
  - cbn [Nat.add zseq app]. rewrite IH. do 3 f_equal. lia.
Qed.

Lemma map_constant {A B : Type} (f : A -> B) (x : B) (l : list A) :
  (forall y, In y l -> f y = x) -> map f l = repeat x (List.length l).
Proof.
  induction l as [|y l IH]; intros H; [reflexivity|].
  cbn [map List.length repeat]. rewrite (H y) by now left.
  rewrite IH by (intros z Hz; apply H; now right). reflexivity.
Qed.

(** Row [i] of the visualization, where the sums [i + j] are exact:
    [m - i] letters U, then [i] letters L. *)
Lemma region_row_letters (m i : Z) :
  m <= 1073741824 -> 0 <= i < m ->
  ConcentricSquare.region_row m i =
  cat (repeat "U " (Z.to_nat (m - i))) ++ cat (repeat "L " (Z.to_nat i)) ++ nl.
Proof.
  intros Hm Hi. unfold ConcentricSquare.region_row.
  replace (Z.to_nat m) with (Z.to_nat (m - i) + Z.to_nat i)%nat by lia.
  rewrite zseq_app, map_app, cat_app, append_assoc.
  rewrite (map_constant _ "U " (zseq 0 (Z.to_nat (m - i)))).
  2:{ intros j Hj. apply zseq_In in Hj.
      unfold Int.add. rewrite wrap_id by int_range.
      destruct (Z.ltb_spec (i + j) m); [reflexivity | lia]. }
  rewrite (map_constant _ "L " (zseq (0 + Z.of_nat (Z.to_nat (m - i))) (Z.to_nat i))).
  2:{ intros j Hj. apply zseq_In in Hj.
      unfold Int.add. rewrite wrap_id by int_range.
      destruct (Z.ltb_spec (i + j) m); [lia | reflexivity]. }
  now rewrite !zseq_length.
Qed.

(** X6: for [1 <= n <= 2^29], [visualize_regions n] prints its heading,
    then [m = 2n - 1] rows, row [i] being [m - i] times the letter U and
    [i] times the letter L, each followed by a space, and a closing
    empty line: the anti-diagonal belongs to the region U. *)
Theorem X6_region_rows (n : Z) :
  1 <= n <= 536870912 ->
  run (ConcentricSquare.visualize_regions n) =
    Some (tt,
          line "Region visualization (U = Upper-left, L = Lower-right):" ++
          cat (map (fun i => cat (repeat "U " (Z.to_nat (2 * n - 1 - i))) ++
                             cat (repeat "L " (Z.to_nat i)) ++ nl)
                   (zseq 0 (Z.to_nat (2 * n - 1)))) ++
          nl).
Proof.
  intros Hn.
  assert (Hm : ConcentricSquare.grid_dim n = 2 * n - 1)
    by (apply grid_dim_exact; lia).
  rewrite (emits_run _ _ (visualize_regions_emits n)). rewrite Hm.
  do 5 f_equal. apply map_ext_in. intros i Hi. apply zseq_In in Hi.
  apply region_row_letters; lia.
Qed.

Lemma X6_witness :
  run (ConcentricSquare.visualize_regions 2) =
    Some (tt,
          line "Region visualization (U = Upper-left, L = Lower-right):" ++
          line "U U U " ++ line "U U L " ++ line "U L L " ++ nl).
Proof. apply (X6_region_rows 2). lia. Defined.

(** X7: [visualize_regions] has no test on its argument: for every [n]
    with [-2^30 < n <= 0] it prints its heading and the closing empty
    line, no row and no error message. *)
Theorem X7_region_nonpositive (n : Z) :
  -1073741824 < n <= 0 ->
  run (ConcentricSquare.visualize_regions n) =
    Some (tt,
          line "Region visualization (U = Upper-left, L = Lower-right):" ++ nl).
Proof.
  intros Hn.
  assert (Hm : ConcentricSquare.grid_dim n = 2 * n - 1).
  { unfold ConcentricSquare.grid_dim, Int.sub, Int.mul.
    rewrite (wrap_id (2 * n)) by int_range. apply wrap_id. int_range. }
  rewrite (emits_run _ _ (visualize_regions_emits n)). rewrite Hm.
  replace (Z.to_nat (2 * n - 1)) with O by lia. reflexivity.
Qed.

Lemma X7_witness :
  run (ConcentricSquare.visualize_regions (-3)) =
    Some (tt,
          line "Region visualization (U = Upper-left, L = Lower-right):" ++ nl).
Proof. apply X7_region_nonpositive. lia. Defined.

(** X8: the square program shows the visualization exactly for the
    sizes up to 7. For [1 <= size <= 2^30] its output is the banner, a
    line feed, for [size <= 7] the text of [visualize_regions size], the
    heading and the pattern of [size], a line feed and the examples; the
    status is 0. *)
Theorem X8_square_main_gate (size : Z) :
  1 <= size <= 1073741824 ->
  (size <= 7 ->
   exists s_vis,
     run (ConcentricSquare.visualize_regions size) = Some (tt, s_vis) /\
     run (ConcentricSquare.main (Parsed size)) =
       Some (0, ConcentricSquare.banner ++ nl ++ s_vis ++
                line "Concentric square pattern:" ++
                ConcentricSquare.render_grid (ConcentricSquare.grid size) ++
                nl ++ ConcentricSquare.examples)) /\
  (7 < size ->
   run (ConcentricSquare.main (Parsed size)) =
     Some (0, ConcentricSquare.banner ++ nl ++
              line "Concentric square pattern:" ++
              ConcentricSquare.render_grid (ConcentricSquare.grid size) ++
              nl ++ ConcentricSquare.examples)).
Proof.
  intros Hs.
  pose proof (print_concentric_square_emits size ltac:(lia)) as Hpat.
  split; intros Hgate.
  - eexists. split; [apply emits_run, visualize_regions_emits|].
    apply yields_run, square_main_parsed; [|exact Hpat].
    destruct (Z.leb_spec size 7); [apply visualize_regions_emits | lia].
  - rewrite <- (append_nil_l (line "Concentric square pattern:" ++ _)).
    apply yields_run, square_main_parsed; [|exact Hpat].
    destruct (Z.leb_spec size 7); [lia | apply emits_ret].
Qed.

Lemma X8_witness :
  run (ConcentricSquare.main (Parsed 8)) =
    Some (0, ConcentricSquare.banner ++ nl ++
             line "Concentric square pattern:" ++
             ConcentricSquare.render_grid (ConcentricSquare.grid 8) ++
             nl ++ ConcentricSquare.examples).
Proof.
  destruct (X8_square_main_gate 8) as [_ H]; [lia|]. apply H. lia.
Defined.

(** ** The size of the triangle *)

Lemma count_char_app (c : ascii) (s1 s2 : string) :
  count_char c (s1 ++ s2) = (count_char c s1 + count_char c s2)%nat.
Proof.
  induction s1 as [|a s1 IH]; simpl; [reflexivity|]. rewrite IH. lia.
Qed.

Lemma string_length_app (s1 s2 : string) :
  String.length (s1 ++ s2) = (String.length s1 + String.length s2)%nat.
Proof.
  induction s1 as [|a s1 IH]; simpl; [reflexivity | now rewrite IH].
Qed.

Lemma glyphs_size (k : nat) :
  count_char "*"%char (Triangle.glyphs k) = k /\
  count_char "010"%char (Triangle.glyphs k) = O /\
  String.length (Triangle.glyphs k) = (2 * k)%nat.
Proof.
  induction k as [|k [IH1 [IH2 IH3]]]; [repeat split|].
  simpl. simpl in IH3. rewrite IH1, IH2, IH3. repeat split; lia.
Qed.

(** One more row at the end. *)
Lemma triangle_rows_succ (n : nat) :
  cat (Triangle.triangle_rows (S n)) =
  cat (Triangle.triangle_rows n) ++ Triangle.glyphs (S n) ++ nl.
Proof.
  unfold Triangle.triangle_rows.
  rewrite seq_S, map_app, cat_app. cbn [map Nat.add].
  rewrite cat_cons. f_equal. apply append_nil_r.
Qed.

Lemma triangle_rows_size (n : nat) :
  Z.of_nat (count_char "*"%char (cat (Triangle.triangle_rows n))) =
    Triangle.T (Z.of_nat n) /\
  count_char "010"%char (cat (Triangle.triangle_rows n)) = n /\
  Z.of_nat (String.length (cat (Triangle.triangle_rows n))) =
    Z.of_nat n * (Z.of_nat n + 2).
Proof.
  induction n as [|n [IH1 [IH2 IH3]]]; [repeat split|].
  rewrite triangle_rows_succ.
  destruct (glyphs_size (S n)) as [G1 [G2 G3]].
  rewrite !count_char_app, !string_length_app, G1, G2, G3, IH2.
  replace (Z.of_nat (S n)) with (Z.of_nat n + 1) by lia.
  rewrite T_succ.
  change (count_char "*"%char nl) with O.
  change (count_char "010"%char nl) with 1%nat.
  change (String.length nl) with 1%nat.
  repeat split; lia.
Qed.

(** X9: for [1 <= n <= 46340] the text printed by [print_triangle n] has
    exactly [n (n + 1) / 2] asterisks and [n] line feeds, and
    [n (n + 2)] characters in all. *)
Theorem X9_triangle_size (n : Z) :
  1 <= n <= 46340 ->
  exists out,
    run (Triangle.print_triangle n) = Some (tt, out) /\
    Z.of_nat (count_char "*"%char out) = n * (n + 1) / 2 /\
    Z.of_nat (count_char "010"%char out) = n /\
    Z.of_nat (String.length out) = n * (n + 2).
Proof.
  intros Hn. exists (cat (Triangle.triangle_rows (Z.to_nat n))).
  split; [apply emits_run, print_triangle_emits; lia|].
  destruct (triangle_rows_size (Z.to_nat n)) as [H1 [H2 H3]].
  rewrite Z2Nat.id in H1, H3 by lia.
  rewrite H1, H2, H3. unfold Triangle.T. repeat split; lia.
Qed.

Lemma X9_witness :
  exists out,
    run (Triangle.print_triangle 4) = Some (tt, out) /\
    Z.of_nat (count_char "*"%char out) = 4 * (4 + 1) / 2 /\
    Z.of_nat (count_char "010"%char out) = 4 /\
    Z.of_nat (String.length out) = 4 * (4 + 2).
Proof. apply (X9_triangle_size 4). lia. Defined.

(** X10: a triangle begins with the triangle one row lower: for
    [1 <= n < 46340], [print_triangle (n + 1)] prints the text of
    [print_triangle n] followed by one row of [n + 1] glyphs. *)
Theorem X10_triangle_grows_by_a_row (n : Z) :
  1 <= n < 46340 ->
  exists out,
    run (Triangle.print_triangle n) = Some (tt, out) /\
    run (Triangle.print_triangle (n + 1)) =
      Some (tt, out ++ Triangle.glyphs (Z.to_nat (n + 1)) ++ nl).
Proof.
  intros Hn. exists (cat (Triangle.triangle_rows (Z.to_nat n))).
  split; [apply emits_run, print_triangle_emits; lia|].
  rewrite (emits_run _ _ (print_triangle_emits (n + 1) ltac:(lia))).
  replace (Z.to_nat (n + 1)) with (S (Z.to_nat n)) by lia.
  now rewrite triangle_rows_succ.
Qed.

Lemma X10_witness :
  exists out,
    run (Triangle.print_triangle 2) = Some (tt, out) /\
    run (Triangle.print_triangle (2 + 1)) =
      Some (tt, out ++ Triangle.glyphs (Z.to_nat (2 + 1)) ++ nl).
Proof. apply (X10_triangle_grows_by_a_row 2). lia. Defined.

(** X11: a height whose product [n * (n + 1)] is not an [int] is not
    rejected: for [46341 <= n <= 65535] the reduced product is negative,
    so is [total], and the function prints nothing, neither a glyph nor
    the error message. *)
Theorem X11_triangle_silent_beyond_range (n : Z) :
  46341 <= n <= 65535 ->
  run (Triangle.print_triangle n) = Some (tt, EmptyString).
Proof.
  intros Hn. unfold Triangle.print_triangle.
  destruct (Z.leb_spec n 0) as [Hle|Hlt]; [lia|]. cbv zeta.
  assert (Hx : 2147483647 < n * (n + 1) <= 4294901760) by nia.
  assert (Hp : Int.mul n (Int.add n 1) = n * (n + 1) - 4294967296).
  { unfold Int.mul, Int.add. rewrite (wrap_id (n + 1)) by int_range.
    rewrite wrap_above by int_range. reflexivity. }
  assert (Hneg : Int.div (Int.mul n (Int.add n 1)) 2 < 1).
  { rewrite Hp. unfold Int.div.
    assert (Hq : -1073741824 <= Z.quot (n * (n + 1) - 4294967296) 2 <= -1).
    { generalize dependent (n * (n + 1)). intros x Hx _.
      Z.to_euclidean_division_equations. lia. }
    rewrite wrap_id by int_range. lia. }
  rewrite star_loop_done by lia. reflexivity.
Qed.

Lemma X11_witness :
  run (Triangle.print_triangle 50000) = Some (tt, EmptyString).
Proof. apply X11_triangle_silent_beyond_range. lia. Defined.

(** X12: the rings have width one: for [1 <= n <= 2^29] two cells next
    to each other in a row or in a column hold values that differ by at
    most one. *)
Theorem X12_neighbours_differ_by_one (n i j : Z) :
  1 <= n <= 536870912 ->
  0 <= i < 2 * n - 1 -> 0 <= j < 2 * n - 2 ->
  Z.abs (ConcentricSquare.printed_value n i (j + 1) -
         ConcentricSquare.printed_value n i j) <= 1 /\
  Z.abs (ConcentricSquare.printed_value n (j + 1) i -
         ConcentricSquare.printed_value n j i) <= 1.
Proof.
  intros Hn Hi Hj. rewrite !printed_value_exact by lia.
  destruct (Z.ltb_spec (i + (j + 1)) (2 * n - 1));
    destruct (Z.ltb_spec (i + j) (2 * n - 1));
    destruct (Z.ltb_spec (j + 1 + i) (2 * n - 1));
    destruct (Z.ltb_spec (j + i) (2 * n - 1)); lia.
Qed.

Lemma X12_witness :
  Z.abs (ConcentricSquare.printed_value 4 2 (3 + 1) -
         ConcentricSquare.printed_value 4 2 3) <= 1 /\
  Z.abs (ConcentricSquare.printed_value 4 (3 + 1) 2 -
         ConcentricSquare.printed_value 4 3 2) <= 1.
Proof. apply (X12_neighbours_differ_by_one 4 2 3); lia. Defined.
